(** * Poker GUI: turn controller, legal-action resolver and preflop trainer

    A shallow embedding of [poker_app_gui_pretty_v4.py].  The Python text
    primitives the program relies on come first, as an interface with its
    reference on ASCII text, then the pure helpers ([_parse_amount], the
    default sizing inside [_act], [_legal_actions_now], [_trainer_advice]),
    then the Tk controller as a state machine over an abstract poker engine,
    and finally the properties. *)

From Stdlib Require Import ZArith String Ascii List Lia Bool.
From Stdlib Require Import DecimalString DecimalN DecimalPos.
From stdpp Require Import base gmap strings list.

Open Scope Z_scope.

(** ** Python values and exceptions *)

Module Py.

(** The exceptions that occur in the program.  [Exception] stands for any
    other subclass of Python's [Exception]. *)
Inductive exn : Type :=
| KeyError (key : string)
| ValueError
| IndexError
| TclError
| Exception (what : string).

(** A computation that returns a value or raises. *)
Inductive result (A : Type) : Type :=
| Ok (a : A)
| Raise (e : exn).
Arguments Ok {A} a.
Arguments Raise {A} e.

#[global] Instance result_ret : MRet result := fun A a => Ok a.

#[global] Instance result_bind : MBind result := fun A B k r =>
  match r with
  | Ok a => k a
  | Raise e => Raise e
  end.

Definition is_ValueError (e : exn) : bool :=
  match e with ValueError => true | _ => false end.

(** [try: body / except ValueError: handler] *)
Definition try_except_ValueError {A} (body : result A) (handler : result A)
  : result A :=
  match body with
  | Ok a => Ok a
  | Raise e => if is_ValueError e then handler else Raise e
  end.

(** *** ASCII text

    What [str.strip], [str.title] and [int] do to a text whose characters
    are all below 128.  On any other text the interpreter goes by its
    Unicode tables; these functions carry a character from 128 on through
    unchanged, as neither white space nor a letter nor a digit, and serve as
    the reference of the interface [PyText] below on ASCII text only. *)

Definition code (c : ascii) : Z := Z.of_N (N_of_ascii c).

Definition chr (n : Z) : ascii := ascii_of_N (Z.to_N n).

(** [str.isspace] on one character: TAB, LF, VT, FF, CR, the four
    separators FS, GS, RS, US, and the space. *)
Definition isspace (c : ascii) : bool :=
  let n := code c in
  ((9 <=? n) && (n <=? 13)) || ((28 <=? n) && (n <=? 31)) || (n =? 32).

Definition isupper (c : ascii) : bool :=
  let n := code c in (65 <=? n) && (n <=? 90).

Definition islower (c : ascii) : bool :=
  let n := code c in (97 <=? n) && (n <=? 122).

Definition iscased (c : ascii) : bool := isupper c || islower c.

Definition upper (c : ascii) : ascii :=
  if islower c then chr (code c - 32) else c.

Definition lower (c : ascii) : ascii :=
  if isupper c then chr (code c + 32) else c.

Fixpoint lstrip (s : string) : string :=
  match s with
  | EmptyString => EmptyString
  | String c s' => if isspace c then lstrip s' else s
  end.

Fixpoint rstrip (s : string) : string :=
  match s with
  | EmptyString => EmptyString
  | String c s' =>
      match rstrip s' with
      | EmptyString => if isspace c then EmptyString else String c EmptyString
      | r => String c r
      end
  end.

(** [str.strip()] *)
Definition strip (s : string) : string := rstrip (lstrip s).

(** [str.title()]: a cased character is upper-cased when the character
    before it is not cased, and lower-cased when it is. *)
Fixpoint title_from (previous_is_cased : bool) (s : string) : string :=
  match s with
  | EmptyString => EmptyString
  | String c s' =>
      String (if previous_is_cased then lower c else upper c)
             (title_from (iscased c) s')
  end.

Definition title (s : string) : string := title_from false s.

(** Truth value of a [str]. *)
Definition truthy (s : string) : bool :=
  match s with EmptyString => false | _ => true end.

(** *** [int(text)]

    Surrounding blanks are dropped ([int] goes by the C notion of a blank:
    TAB, LF, VT, FF, CR and the space), then come one optional sign and
    decimal digits with single underscores between digits.  The
    interpreter's limit on the number of digits (4300 unless configured,
    and never configured below 640) is not part of this function. *)

Definition isblank (c : ascii) : bool :=
  let n := code c in ((9 <=? n) && (n <=? 13)) || (n =? 32).

Fixpoint skip_blanks (s : string) : string :=
  match s with
  | EmptyString => EmptyString
  | String c s' => if isblank c then skip_blanks s' else s
  end.

Fixpoint all_blank (s : string) : bool :=
  match s with
  | EmptyString => true
  | String c s' => isblank c && all_blank s'
  end.

Definition digit (c : ascii) : option Z :=
  let n := code c in
  if (48 <=? n) && (n <=? 57) then Some (n - 48) else None.

Definition is_underscore (c : ascii) : bool := code c =? 95.

(** [need_digit] holds at the start and right after an underscore.  The
    digits end at the end of the text or at trailing blanks. *)
Fixpoint digits_from (acc : Z) (need_digit : bool) (s : string) : option Z :=
  match s with
  | EmptyString => if need_digit then None else Some acc
  | String c s' =>
      if is_underscore c then
        if need_digit then None else digits_from acc true s'
      else
        match digit c with
        | Some d => digits_from (10 * acc + d) false s'
        | None => if negb need_digit && all_blank s then Some acc else None
        end
  end.

Definition int_opt (s : string) : option Z :=
  match skip_blanks s with
  | EmptyString => None
  | String c s' =>
      if code c =? 45 then Z.opp <$> digits_from 0 true s'
      else if code c =? 43 then digits_from 0 true s'
      else digits_from 0 true (String c s')
  end.

Definition int (s : string) : result Z :=
  match int_opt s with
  | Some n => Ok n
  | None => Raise ValueError
  end.

End Py.

Import Py.

(** ** Text, as the interpreter reads it

    A [str] is modelled by the [string] of its UTF-8 bytes, so that comparing
    and joining texts is comparing and joining their models.  [str.strip],
    [str.title] and [int] are the interpreter's, not the program's: they are
    taken as an interface.  [int] on a text either returns or raises
    [ValueError], hence an [option].  What the interface fixes is the
    behaviour on ASCII text, where the three are the functions of [Py]; for
    [int] up to 640 characters, below which no configuration of the
    interpreter refuses a numeral for its length. *)

Fixpoint is_ascii (s : string) : bool :=
  match s with
  | EmptyString => true
  | String c s' => (code c <? 128) && is_ascii s'
  end.

Class PyText : Type := {
  (** [text.strip()] *)
  strip : string -> string;
  (** [text.title()] *)
  title : string -> string;
  (** [int(text)]; [None] when it raises [ValueError] *)
  int_opt : string -> option Z;
  strip_ascii :
    forall s : string, is_ascii s = true -> strip s = Py.strip s;
  title_ascii :
    forall s : string, is_ascii s = true -> title s = Py.title s;
  int_opt_ascii :
    forall s : string,
      is_ascii s = true -> (String.length s <= 640)%nat ->
      int_opt s = Py.int_opt s
}.

Definition int {PT : PyText} (s : string) : result Z :=
  match int_opt s with
  | Some n => Ok n
  | None => Raise ValueError
  end.

(** The reference functions themselves: the interpreter on ASCII text. *)
#[global] Instance ascii_text : PyText := {|
  strip := Py.strip;
  title := Py.title;
  int_opt := Py.int_opt;
  strip_ascii := fun _ _ => eq_refl;
  title_ascii := fun _ _ => eq_refl;
  int_opt_ascii := fun _ _ _ => eq_refl
|}.

(** ** Legal-action resolver and default sizing *)

(** The prompt dictionary the engine hands to the GUI on the human's turn. *)
Record Prompt : Type := mkPrompt {
  to_call : Z;
  min_raise_to : Z;
  you_stack : Z;
  you_bet_street : Z;
  pot : Z
}.

(** [_parse_amount], as a function of the text in the amount entry. *)
Definition _parse_amount {PT : PyText} (amount_var : string) : result Z :=
  let raw := strip amount_var in
  if String.eqb raw "" then Ok 0
  else
    try_except_ValueError
      (n ← int raw; Ok (Z.max 0 n))
      (Ok 0).

(** ** Preflop trainer *)

Module Trainer.

(** [[(r, i) for i, r in enumerate(text, start)]] *)
Fixpoint enumerate (text : string) (start : Z) : list (string * Z) :=
  match text with
  | EmptyString => []
  | String c text' => (String c EmptyString, start) :: enumerate text' (start + 1)
  end.

Definition RANK_VAL : gmap string Z :=
  list_to_map (enumerate "23456789TJQKA" 2).

(** [d[key]] on a dictionary with text keys. *)
Definition getitem {V} (d : gmap string V) (key : string) : result V :=
  match d !! key with
  | Some v => Ok v
  | None => Raise (KeyError key)
  end.

(** [l[i]] on a list. *)
Definition index {A} (l : list A) (i : Z) : result A :=
  let j := if i <? 0 then Z.of_nat (length l) + i else i in
  if j <? 0 then Raise IndexError
  else match l !! Z.to_nat j with
       | Some x => Ok x
       | None => Raise IndexError
       end.

Definition levels : list string := ["Beginner"; "Intermediate"; "Advanced"].

(** [(level or "Beginner").strip().title()] *)
Definition level_text {PT : PyText} (level : option string) : string :=
  let level :=
    match level with
    | Some l => if truthy l then l else "Beginner"
    | None => "Beginner"
    end in
  title (strip level).

(** ... and the fallback to Beginner for a level that is not one of the
    three. *)
Definition level_norm {PT : PyText} (level : option string) : string :=
  let level := level_text level in
  if bool_decide (level ∈ levels) then level else "Beginner".

Definition loosen_table : gmap string Z :=
  list_to_map [("Beginner", 0); ("Intermediate", 1); ("Advanced", 2)].

Definition tight (pos : string) : bool := bool_decide (pos ∈ ["UTG"]).
Definition mid (pos : string) : bool := bool_decide (pos ∈ ["HJ"; "SB"]).
Definition late (pos : string) : bool := bool_decide (pos ∈ ["CO"; "BTN"]).

Definition premiums : gset (string * string) :=
  {[ ("A", "A"); ("K", "K"); ("Q", "Q"); ("J", "J"); ("A", "K") ]}.

Definition strong_broadways : gset (string * string) :=
  {[ ("A", "Q"); ("A", "J"); ("K", "Q"); ("K", "J"); ("Q", "J") ]}.

Definition offsuit_broadways : gset (string * string) :=
  {[ ("A", "Q"); ("A", "K"); ("K", "Q") ]}.

(** The connector set as built up by the two [|=] updates. *)
Definition connectors (loosen : Z) : gset (string * string) :=
  let connectors : gset (string * string) :=
    {[ ("9", "8"); ("T", "9"); ("J", "T"); ("Q", "J"); ("K", "Q"); ("8", "7") ]} in
  let connectors :=
    if loosen >=? 1 then connectors ∪ {[ ("7", "6"); ("9", "7"); ("T", "8") ]}
    else connectors in
  if loosen >=? 2 then connectors ∪ {[ ("6", "5"); ("8", "6"); ("J", "9") ]}
  else connectors.

Definition _trainer_advice {PT : PyText} (r1 r2 : string) (suited : bool)
    (pos : string) (level : option string) : result (string * string) :=
  (* Normalize order *)
  v2 ← getitem RANK_VAL r2;
  v1 ← getitem RANK_VAL r1;
  let '(r1, r2) := if v2 >? v1 then (r2, r1) else (r1, r2) in
  let is_pair := String.eqb r1 r2 in
  let level := level_norm level in
  loosen ← getitem loosen_table level;
  let tight := tight pos in
  let mid := mid pos in
  let late := late pos in
  let key := (r1, r2) in
  if is_pair then
    pair_raise_cut ← index ["9"; "8"; "7"] (Z.min loosen 2);
    pair_mid_raise_cut ← index ["6"; "5"; "4"] (Z.min loosen 2);
    a ← getitem RANK_VAL r1;
    b ← getitem RANK_VAL pair_raise_cut;
    if a >=? b then
      Ok ("Raise",
          "Big pairs and medium-high pairs play great heads-up. In an unopened pot, raising is the default to build value and take initiative.")
    else
      small ← (if late then Ok true
               else if mid then
                 a ← getitem RANK_VAL r1;
                 c ← getitem RANK_VAL pair_mid_raise_cut;
                 Ok (a >=? c)
               else Ok false);
      if small : bool then
        Ok ("Raise",
            "Small pairs can be raised in later positions because you’ll steal blinds often and sometimes flop strong sets.")
      else
        Ok ("Fold",
            "From early position, tiny pairs are often dominated and you’ll be out of position. A simple default is to fold the smallest pairs UTG.")
  else
  (* Suited big cards *)
  big ← (if suited then
           if bool_decide (key ∈ premiums) then Ok true
           else if bool_decide (key ∈ strong_broadways) then Ok true
           else if bool_decide (r1 ∈ ["A"; "K"; "Q"]) then
             a ← getitem RANK_VAL r2;
             t ← getitem RANK_VAL "T";
             Ok (a >=? t)
           else Ok false
         else Ok false);
  if big : bool then
    Ok ("Raise",
        "Suited high cards make strong top pairs and can make nut flushes. Raising is the standard default in an unopened pot.")
  else
  (* Offsuit big cards *)
  if negb suited
     && (bool_decide (key ∈ premiums) || bool_decide (key ∈ offsuit_broadways))
  then
    Ok ("Raise",
        "Top broadways (like AK/AQ/KQ) are strong enough to raise even when offsuit. You often win by making top pair with good kicker.")
  else
  (* Suited connectors / one-gappers *)
  let connectors := connectors loosen in
  if suited && bool_decide (key ∈ connectors) then
    if late then
      Ok ("Raise",
          "In late position, suited connectors are good steals and can flop strong draws. A raise is a solid default when folded to you.")
    else if mid then
      Ok ("Call",
          "From middle/out-of-position spots, suited connectors are playable but not mandatory. A simple default is call more and raise less.")
    else
      Ok ("Fold",
          "From early position, suited connectors can get you into tough spots out of position. Tight default: fold them UTG.")
  else
  (* Axs suited (wheel-ish) *)
  axs ← (if suited then
           if String.eqb r1 "A" then
             a ← getitem RANK_VAL r2;
             f ← getitem RANK_VAL "5";
             Ok (a >=? f)
           else Ok false
         else Ok false);
  if axs : bool then
    if late || mid then
      Ok ("Raise",
          "Suited A-x can make nut flushes and has blocker value. In late/mid positions, raising is a good default.")
    else if loosen >=? 2 then
      Ok ("Call",
          "Advanced default: some suited A-x can be mixed (call/raise) even UTG because it has nut-flush potential. Keep it simple: call with the better suited aces.")
    else
      Ok ("Fold",
          "Suited A-x is tempting, but from UTG it’s easy to get dominated when you make one pair. Tight default: fold UTG.")
  else
  (* Otherwise *)
  late_suited_cut ← index ["T"; "9"; "8"] (Z.min loosen 2);
  steal ← (if late then
             if suited then
               a ← getitem RANK_VAL r1;
               c ← getitem RANK_VAL late_suited_cut;
               Ok (a >=? c)
             else Ok false
           else Ok false);
  if steal : bool then
    Ok ("Raise",
        "Late position gives you fold equity and position advantage. Suited hands with decent high cards can be raised as steals.")
  else
    Ok ("Fold",
        "Default fundamentals (" +:+ level +:+ "): if it’s not a pair, strong Broadway, suited ace, or a good suited connector — fold. Tight is okay while learning.").

End Trainer.

Import Trainer.

(** ** The poker engine, as the GUI sees it

    [poker_engine] is a collaborator of the program.  Its values and calls
    are taken as an interface: the types the GUI only passes around, the
    attributes it reads, and the calls it makes.  A call on the engine is a
    function on the engine's state and returns normally; the one call the
    GUI guards with [try], [estimate_win_prob], returns a [result]. *)

Class EngineTypes : Type := {
  Card : Type;
  Rng : Type;
  Float : Type;
  (** what the GUI reads only to display it, and what it never reads *)
  Internals : Type
}.

Record Player {T : EngineTypes} : Type := mkPlayer {
  name : string;
  stack : Z;
  bet_street : Z;
  folded : bool;
  all_in : bool;
  is_human : bool;
  hole : list Card
}.

Module GameSettings.
Record t {T : EngineTypes} : Type := mk {
  players : Z;
  start_stack : Z;
  sb : Z;
  bb : Z;
  seed : option Z;
  cpu_aggression : Float;
  cpu_randomness : Float;
  mc_iters_preflop : Z;
  mc_iters_postflop : Z
}.
End GameSettings.

Record PokerEngine {T : EngineTypes} : Type := mkEngine {
  hand_active : bool;
  waiting_for_human : bool;
  prompt : option Prompt;
  board : list Card;
  players : list Player;
  rng : Rng;
  internals : Internals
}.

Class PokerEngineAPI {T : EngineTypes} : Type := {
  (** [GameSettings()] *)
  default_settings : GameSettings.t;
  (** [PokerEngine(settings)] *)
  new_engine : GameSettings.t -> PokerEngine;
  start_new_hand : PokerEngine -> PokerEngine;
  advance : PokerEngine -> PokerEngine;
  apply_human_action : string -> Z -> PokerEngine -> PokerEngine;
  (** [estimate_win_prob(rng, hole, board, num_opps, iters)]; it draws from
      the generator it is given *)
  estimate_win_prob :
    Rng -> list Card -> list Card -> Z -> Z -> result Float * Rng;
  (** a decimal literal [m × 10^e], read as a float *)
  float_literal : Z -> Z -> Float;
  (** [float(text)] *)
  float_of_text : string -> result Float;
  (** [int(base_iters * 0.6)] *)
  scale_iters : Z -> Z;
  (** [f"Win odds vs {num_opps} opps: {wp * 100:.1f}%"] *)
  format_odds : Z -> Float -> string
}.

(** Default sizing: the amount [_act] passes on, given the parsed amount. *)
Definition act_amount (action : string) (prompt : option Prompt) (bb amt : Z) : Z :=
  match prompt with
  | Some prompt =>
      if bool_decide (action ∈ ["bet"; "raise"]) && (amt <=? 0) then
        let pot := pot prompt in
        let min_raise_to := min_raise_to prompt in
        let you_stack := you_stack prompt in
        if String.eqb action "bet" then
          Z.min (Z.max (bb * 2) (pot / 2)) you_stack
        else
          Z.min (Z.max min_raise_to (min_raise_to + pot / 2))
                (you_stack + you_bet_street prompt)
      else amt
  | None => amt
  end.

Definition _legal_actions_now {T : EngineTypes} (engine : PokerEngine) : gset string :=
  match hand_active engine, prompt engine with
  | true, Some prompt =>
      let to_call := to_call prompt in
      if to_call <=? 0 then {[ "check"; "bet"; "allin" ]}
      else {[ "fold"; "call"; "raise"; "allin" ]}
  | _, _ => ∅
  end.

(** ** The controller *)

(** The callbacks the program hands to [after]. *)
Inductive callback : Type :=
| cb_next_hand
| cb_cpu_loop
| cb_auto_next_hand_if_idle.

#[global] Instance callback_eq_dec : EqDecision callback.
Proof. solve_decision. Defined.

Record timer : Type := mkTimer {
  timer_id : nat;
  timer_ms : Z;
  timer_cb : callback
}.

(** What the controller does to the engine and to Tk's timer queue, in the
    order it does it. *)
Inductive call : Type :=
| NewEngine
| StartNewHand
| Advance
| ApplyHumanAction (action : string) (amt : Z)
| After (id : nat) (ms : Z) (cb : callback)
| AfterCancel (id : nat).

Definition is_engine_call (c : call) : bool :=
  match c with
  | NewEngine | StartNewHand | Advance | ApplyHumanAction _ _ => true
  | After _ _ _ | AfterCancel _ => false
  end.

(** The texts of the settings dialog. *)
Record SettingsForm : Type := mkForm {
  v_players : string;
  v_stack : string;
  v_sb : string;
  v_bb : string;
  v_seed : string;
  v_aggr : string;
  v_rand : string;
  v_pre : string;
  v_post : string
}.

Record Preset {T : EngineTypes} : Type := mkPreset {
  preset_cpu_aggression : Float;
  preset_cpu_randomness : Float;
  mc_pre : Z;
  mc_post : Z
}.

(** The attributes of [PokerGUI] that the control flow reads or writes, the
    widgets the refresh sets from the prompt, Tk's queue of pending [after]
    callbacks, and the record of calls made so far.  The widgets that only
    show text (status, cards, table, log, statistics) are left out. *)
Record PokerGUI {T : EngineTypes} : Type := mkGUI {
  auto_advance_hand : bool;
  _auto_next_after_id : option nat;
  cpu_preset_var : string;
  settings : GameSettings.t;
  engine : PokerEngine;
  amount_var : string;
  odds_var : string;
  (** the buttons whose state is [normal] *)
  normal_buttons : gset string;
  (** the buttons styled [Hot.Action.TButton] *)
  hot_buttons : gset string;
  pending : list timer;
  next_after_id : nat;
  calls : list call
}.

Section Controller.

Context {T : EngineTypes} {API : PokerEngineAPI} {PT : PyText}.

Definition CPU_PRESETS : gmap string Preset :=
  list_to_map
    [("Beginner", mkPreset _ (float_literal 90 (-2)) (float_literal 65 (-2)) 120 180);
     ("Normal", mkPreset _ (float_literal 100 (-2)) (float_literal 45 (-2)) 220 320);
     ("Strong", mkPreset _ (float_literal 115 (-2)) (float_literal 25 (-2)) 450 650);
     ("Pro", mkPreset _ (float_literal 125 (-2)) (float_literal 12 (-2)) 800 1100)].

(** *** A callback: a state transformer that returns or raises *)

Definition M (A : Type) : Type := PokerGUI -> result A * PokerGUI.

#[global] Instance M_ret : MRet M := fun A a g => (Ok a, g).

#[global] Instance M_bind : MBind M := fun A B k m g =>
  match m g with
  | (Ok a, g') => k a g'
  | (Raise e, g') => (Raise e, g')
  end.

Definition get : M PokerGUI := fun g => (Ok g, g).

Definition modify (f : PokerGUI -> PokerGUI) : M unit := fun g => (Ok tt, f g).

Definition lift {A} (r : result A) : M A := fun g => (r, g).

(** [try: body / except Exception: handler] *)
Definition try_except_Exception {A} (body handler : M A) : M A := fun g =>
  match body g with
  | (Ok a, g') => (Ok a, g')
  | (Raise _, g') => handler g'
  end.

Definition set_engine (e : PokerEngine) (g : PokerGUI) : PokerGUI :=
  mkGUI _ (auto_advance_hand g) (_auto_next_after_id g) (cpu_preset_var g)
    (settings g) e (amount_var g) (odds_var g) (normal_buttons g)
    (hot_buttons g) (pending g) (next_after_id g) (calls g).

Definition set_settings (s : GameSettings.t) (g : PokerGUI) : PokerGUI :=
  mkGUI _ (auto_advance_hand g) (_auto_next_after_id g) (cpu_preset_var g)
    s (engine g) (amount_var g) (odds_var g) (normal_buttons g)
    (hot_buttons g) (pending g) (next_after_id g) (calls g).

Definition set_auto_next_after_id (i : option nat) (g : PokerGUI) : PokerGUI :=
  mkGUI _ (auto_advance_hand g) i (cpu_preset_var g)
    (settings g) (engine g) (amount_var g) (odds_var g) (normal_buttons g)
    (hot_buttons g) (pending g) (next_after_id g) (calls g).

Definition set_cpu_preset_var (s : string) (g : PokerGUI) : PokerGUI :=
  mkGUI _ (auto_advance_hand g) (_auto_next_after_id g) s
    (settings g) (engine g) (amount_var g) (odds_var g) (normal_buttons g)
    (hot_buttons g) (pending g) (next_after_id g) (calls g).

Definition set_amount_var (s : string) (g : PokerGUI) : PokerGUI :=
  mkGUI _ (auto_advance_hand g) (_auto_next_after_id g) (cpu_preset_var g)
    (settings g) (engine g) s (odds_var g) (normal_buttons g)
    (hot_buttons g) (pending g) (next_after_id g) (calls g).

Definition set_odds_var (s : string) (g : PokerGUI) : PokerGUI :=
  mkGUI _ (auto_advance_hand g) (_auto_next_after_id g) (cpu_preset_var g)
    (settings g) (engine g) (amount_var g) s (normal_buttons g)
    (hot_buttons g) (pending g) (next_after_id g) (calls g).

Definition set_normal_buttons (b : gset string) (g : PokerGUI) : PokerGUI :=
  mkGUI _ (auto_advance_hand g) (_auto_next_after_id g) (cpu_preset_var g)
    (settings g) (engine g) (amount_var g) (odds_var g) b
    (hot_buttons g) (pending g) (next_after_id g) (calls g).

Definition set_hot_buttons (b : gset string) (g : PokerGUI) : PokerGUI :=
  mkGUI _ (auto_advance_hand g) (_auto_next_after_id g) (cpu_preset_var g)
    (settings g) (engine g) (amount_var g) (odds_var g) (normal_buttons g)
    b (pending g) (next_after_id g) (calls g).

Definition set_timers (q : list timer) (n : nat) (g : PokerGUI) : PokerGUI :=
  mkGUI _ (auto_advance_hand g) (_auto_next_after_id g) (cpu_preset_var g)
    (settings g) (engine g) (amount_var g) (odds_var g) (normal_buttons g)
    (hot_buttons g) q n (calls g).

Definition record (c : call) (g : PokerGUI) : PokerGUI :=
  mkGUI _ (auto_advance_hand g) (_auto_next_after_id g) (cpu_preset_var g)
    (settings g) (engine g) (amount_var g) (odds_var g) (normal_buttons g)
    (hot_buttons g) (pending g) (next_after_id g) (calls g ++ [c]).

(** *** Tk's [after] and [after_cancel] *)

Definition has_id (id : nat) (t : timer) : bool := Nat.eqb (timer_id t) id.

Definition drop_timer (id : nat) (q : list timer) : list timer :=
  List.filter (fun t => negb (has_id id t)) q.

(** [self.after(ms, cb)]: a fresh identifier, the callback queued. *)
Definition after (ms : Z) (cb : callback) : M nat := fun g =>
  let id := next_after_id g in
  (Ok id,
   record (After id ms cb)
     (set_timers (pending g ++ [mkTimer id ms cb]) (S id) g)).

(** [self.after_cancel(id)]: Tcl raises for an identifier that is not
    pending. *)
Definition after_cancel (id : nat) : M unit := fun g =>
  if existsb (has_id id) (pending g) then
    (Ok tt,
     record (AfterCancel id)
       (set_timers (drop_timer id (pending g)) (next_after_id g) g))
  else (Raise TclError, g).

(** *** Calls on the engine *)

Definition engine_call (c : call) (f : PokerEngine -> PokerEngine) : M unit :=
  modify (fun g => record c (set_engine (f (engine g)) g)).

Definition set_rng (r : Rng) (e : PokerEngine) : PokerEngine :=
  mkEngine _ (hand_active e) (waiting_for_human e) (prompt e) (board e)
    (players e) r (internals e).

(** The call of [estimate_win_prob] on the engine's own generator. *)
Definition call_estimate (cards table : list Card) (num_opps iters : Z) : M Float :=
  fun g =>
    let '(r, rng') := estimate_win_prob (rng (engine g)) cards table num_opps iters in
    (r, set_engine (set_rng rng' (engine g)) g).

(** *** The refresh *)

Definition action_buttons : gset string :=
  {[ "fold"; "check"; "call"; "bet"; "raise"; "allin" ]}.

Definition _highlight_legal_actions : M unit :=
  g ← get;
  let legal := _legal_actions_now (engine g) in
  modify (set_hot_buttons (legal ∩ normal_buttons g ∩ action_buttons)).

(** The odds text of one refresh. *)
Definition refresh_odds : M string :=
  g ← get;
  let hero := head (List.filter is_human (players (engine g))) in
  match hero with
  | Some hero =>
      match hole hero with
      | [] => mret ""
      | _ =>
          let num_opps :=
            Z.of_nat (length (List.filter (fun p => negb (is_human p) && negb (folded p))
                                          (players (engine g)))) in
          if num_opps >? 0 then
            let base_iters :=
              if Nat.eqb (length (board (engine g))) 0
              then GameSettings.mc_iters_preflop (settings g)
              else GameSettings.mc_iters_postflop (settings g) in
            let iters := Z.max 150 (scale_iters base_iters) in
            try_except_Exception
              (wp ← call_estimate (hole hero) (board (engine g)) num_opps iters;
               mret (format_odds num_opps wp))
              (mret "")
          else mret ""
      end
  | None => mret ""
  end.

(** The buttons in state [normal] after one refresh. *)
Definition refresh_buttons (e : PokerEngine) : gset string :=
  let can_act := waiting_for_human e in
  let to_call := match prompt e with Some pr => to_call pr | None => 0 end in
  let six : gset string :=
    if can_act then
      if to_call =? 0 then action_buttons ∖ {[ "fold"; "call"; "raise" ]}
      else action_buttons ∖ {[ "check"; "bet" ]}
    else ∅ in
  if negb (hand_active e) then six ∪ {[ "next" ]} else six.

Definition _refresh : M unit :=
  (* Odds *)
  odds_txt ← refresh_odds;
  modify (set_odds_var odds_txt);;
  (* Buttons *)
  g ← get;
  modify (set_normal_buttons (refresh_buttons (engine g)));;
  _highlight_legal_actions;;
  (* Auto-advance to the next hand when the current hand ends *)
  g ← get;
  if negb (hand_active (engine g)) && auto_advance_hand g then
    match _auto_next_after_id g with
    | None =>
        id ← after 1200 cb_auto_next_hand_if_idle;
        modify (set_auto_next_after_id (Some id))
    | Some _ => mret tt
    end
  else
    (* If a new hand is active, cancel any pending auto-next *)
    match _auto_next_after_id g with
    | Some id =>
        try_except_Exception (after_cancel id) (mret tt);;
        modify (set_auto_next_after_id None)
    | None => mret tt
    end.

(** *** Game loop *)

Definition _next_hand : M unit :=
  engine_call StartNewHand start_new_hand;;
  engine_call Advance advance;;
  _refresh;;
  _ ← after 10 cb_cpu_loop;
  mret tt.

Definition _cpu_loop : M unit :=
  g ← get;
  if negb (hand_active (engine g)) || waiting_for_human (engine g) then
    _refresh
  else
    engine_call Advance advance;;
    _refresh;;
    _ ← after 10 cb_cpu_loop;
    mret tt.

Definition _act (action : string) : M unit :=
  g ← get;
  let prompt := prompt (engine g) in
  amt ← lift (_parse_amount (amount_var g));
  let amt := act_amount action prompt (GameSettings.bb (settings g)) amt in
  engine_call (ApplyHumanAction action amt) (apply_human_action action amt);;
  engine_call Advance advance;;
  _refresh;;
  _ ← after 10 cb_cpu_loop;
  mret tt.

Definition _auto_next_hand_if_idle : M unit :=
  (* Clear the pending id first *)
  modify (set_auto_next_after_id None);;
  g ← get;
  if negb (hand_active (engine g)) then _next_hand else mret tt.

(** *** CPU presets and settings *)

Definition _apply_cpu_preset : M unit :=
  g ← get;
  let name := cpu_preset_var g in
  normal ← lift (getitem CPU_PRESETS "Normal");
  let p := default normal (CPU_PRESETS !! name) in
  let s := settings g in
  let s' :=
    GameSettings.mk _
      (GameSettings.players s) (GameSettings.start_stack s)
      (GameSettings.sb s) (GameSettings.bb s) (GameSettings.seed s)
      (preset_cpu_aggression p) (preset_cpu_randomness p)
      (mc_pre p) (mc_post p) in
  modify (set_settings s');;
  engine_call NewEngine (fun _ => new_engine s');;
  _refresh;;
  _ ← after 10 cb_next_hand;
  mret tt.

(** The [try] block of the dialog's [apply]. *)
Definition read_form (f : SettingsForm) : result GameSettings.t :=
  players ← int (v_players f);
  start_stack ← int (v_stack f);
  sb ← int (v_sb f);
  bb ← int (v_bb f);
  let seed_raw := strip (v_seed f) in
  seed ← (if String.eqb seed_raw "" then Ok None
          else n ← int seed_raw; Ok (Some n));
  cpu_aggr ← float_of_text (v_aggr f);
  cpu_rand ← float_of_text (v_rand f);
  mc_pre ← int (v_pre f);
  mc_post ← int (v_post f);
  Ok (GameSettings.mk _ players start_stack sb bb seed cpu_aggr cpu_rand
        mc_pre mc_post).

(** [apply] of the settings dialog; it returns the text it leaves in
    [err]. *)
Definition apply (f : SettingsForm) : M string :=
  match read_form f with
  | Raise _ => mret "Invalid values."
  | Ok v =>
      let players := GameSettings.players v in
      let start_stack := GameSettings.start_stack v in
      let sb := GameSettings.sb v in
      let bb := GameSettings.bb v in
      if negb ((2 <=? players) && (players <=? 9)) then
        mret "Players must be 2-9."
      else if negb ((20 <=? start_stack) && (start_stack <=? 10000)) then
        mret "Starting stack must be 20-10000."
      else if negb ((0 <? sb) && (sb <? bb)) then
        mret "Require 0 < SB < BB."
      else
        let s' :=
          GameSettings.mk _ players start_stack sb bb (GameSettings.seed v)
            (GameSettings.cpu_aggression v) (GameSettings.cpu_randomness v)
            (Z.max 60 (GameSettings.mc_iters_preflop v))
            (Z.max 60 (GameSettings.mc_iters_postflop v)) in
        modify (set_settings s');;
        engine_call NewEngine (fun _ => new_engine s');;
        _refresh;;
        mret ""
  end.

(** *** Construction and the main loop *)

(** The attributes as [__init__] sets them, before its first refresh. *)
Definition fresh : PokerGUI :=
  mkGUI _ true None "Normal" default_settings (new_engine default_settings)
    "" "" (action_buttons ∪ {[ "next" ]}) ∅ [] 0%nat [NewEngine].

Definition __init__ : PokerGUI :=
  snd ((_refresh;; _ ← after 10 cb_next_hand; mret tt) fresh).

Definition run_callback (cb : callback) : M unit :=
  match cb with
  | cb_next_hand => _next_hand
  | cb_cpu_loop => _cpu_loop
  | cb_auto_next_hand_if_idle => _auto_next_hand_if_idle
  end.

(** What the main loop can be asked to do: a pending timer comes due, or
    the user acts on a widget. *)
Inductive input : Type :=
| Fire (id : nat)
| NewHand
| Press (action : string)
| TypeAmount (raw : string)
| SelectPreset (name : string)
| ApplyPreset
| ApplySettings (f : SettingsForm).

(** A timer that comes due leaves the queue, then its callback runs. *)
Definition fire (id : nat) : M unit :=
  g ← get;
  match List.find (has_id id) (pending g) with
  | Some t =>
      modify (set_timers (drop_timer id (pending g)) (next_after_id g));;
      run_callback (timer_cb t)
  | None => mret tt
  end.

Definition dispatch (i : input) : M unit :=
  match i with
  | Fire id => fire id
  | NewHand => _next_hand
  | Press action => _act action
  | TypeAmount raw => modify (set_amount_var raw)
  | SelectPreset name => modify (set_cpu_preset_var name)
  | ApplyPreset => _apply_cpu_preset
  | ApplySettings f => _ ← apply f; mret tt
  end.

(** Tk reports an exception that escapes a callback and goes on with the
    state as the callback left it. *)
Definition handle (i : input) (g : PokerGUI) : PokerGUI := snd (dispatch i g).

Fixpoint mainloop (inputs : list input) (g : PokerGUI) : PokerGUI :=
  match inputs with
  | [] => g
  | i :: inputs' => mainloop inputs' (handle i g)
  end.

(** The auto-next-hand timers that are pending. *)
Definition auto_next_pending (g : PokerGUI) : list timer :=
  List.filter (fun t => bool_decide (timer_cb t = cb_auto_next_hand_if_idle))
              (pending g).

(** *** Shorthands for the statements *)

(** The tail of every callback that drives the game: refresh, then queue
    the given callback. *)
Definition refresh_and_wake (cb : callback) : M unit :=
  _refresh;; _ ← after 10 cb; mret tt.

(** The state after a call on the engine. *)
Definition did (c : call) (f : PokerEngine -> PokerEngine) (g : PokerGUI) : PokerGUI :=
  record c (set_engine (f (engine g)) g).

(** The amount [_parse_amount] reads in the amount entry. *)
Definition entered (g : PokerGUI) : Z :=
  match int_opt (strip (amount_var g)) with Some n => Z.max 0 n | None => 0 end.

(** The settings a CPU preset leads to. *)
Definition preset_settings (g : PokerGUI) (p : Preset) : GameSettings.t :=
  let s := settings g in
  GameSettings.mk _
    (GameSettings.players s) (GameSettings.start_stack s)
    (GameSettings.sb s) (GameSettings.bb s) (GameSettings.seed s)
    (preset_cpu_aggression p) (preset_cpu_randomness p) (mc_pre p) (mc_post p).

End Controller.

(** ** Vocabulary for the timers and the calls *)

Definition schedules_cpu_loop (c : call) : bool :=
  match c with After _ _ cb_cpu_loop => true | _ => false end.

Definition is_StartNewHand (c : call) : bool :=
  match c with StartNewHand => true | _ => false end.

(** Among the calls [cs], timer [i] is cancelled before a hand is started. *)
Fixpoint cancelled_before_start (i : nat) (cs : list call) : bool :=
  match cs with
  | [] => false
  | AfterCancel j :: cs' => Nat.eqb i j || cancelled_before_start i cs'
  | StartNewHand :: _ => false
  | _ :: cs' => cancelled_before_start i cs'
  end.

Section TimerView.
Context {T : EngineTypes}.

(** What one refresh does to the timers: the queue, the next identifier,
    the stored identifier and the calls, after the refresh. *)
Definition refresh_timers (g : PokerGUI)
  : list timer * nat * option nat * list call :=
  let n := next_after_id g in
  if negb (hand_active (engine g)) && auto_advance_hand g then
    match _auto_next_after_id g with
    | None =>
        (pending g ++ [mkTimer n 1200 cb_auto_next_hand_if_idle], S n, Some n,
         calls g ++ [After n 1200 cb_auto_next_hand_if_idle])
    | Some i => (pending g, n, Some i, calls g)
    end
  else
    match _auto_next_after_id g with
    | Some i =>
        (drop_timer i (pending g), n, None,
         calls g ++ (if existsb (has_id i) (pending g) then [AfterCancel i] else []))
    | None => (pending g, n, None, calls g)
    end.

Definition timer_view (g : PokerGUI) : list timer * nat * option nat * list call :=
  (pending g, next_after_id g, _auto_next_after_id g, calls g).

(** What a refresh leaves as it was. *)
Definition same_control (g g' : PokerGUI) : Prop :=
  (exists r, engine g' = set_rng r (engine g))
  /\ settings g' = settings g
  /\ auto_advance_hand g' = auto_advance_hand g
  /\ amount_var g' = amount_var g
  /\ cpu_preset_var g' = cpu_preset_var g.

(** The timer queue is in order: identifiers are distinct and below the
    next one, and a pending auto-next-hand timer is the one whose
    identifier is stored. *)
Definition timers_ok (g : PokerGUI) : Prop :=
  NoDup (timer_id <$> pending g)
  /\ (forall t, t ∈ pending g -> (timer_id t < next_after_id g)%nat)
  /\ (forall i, _auto_next_after_id g = Some i -> (i < next_after_id g)%nat)
  /\ (forall t, t ∈ pending g -> timer_cb t = cb_auto_next_hand_if_idle ->
                 _auto_next_after_id g = Some (timer_id t)).
End TimerView.

(** ** A scripted engine

    A two-player engine that plays one fixed hand: the CPU moves, the human
    is prompted, the CPU moves again, the hand ends.  Its estimate of the win
    probability always fails.  It serves to run the controller on concrete
    inputs. *)

Module Script.

Definition types : EngineTypes :=
  {| Card := nat; Rng := nat; Float := Z * Z; Internals := nat |}.

Definition the_prompt : Prompt := mkPrompt 10 20 100 0 15.

Definition seats (cards : list nat) : list (@Player types) :=
  [mkPlayer types "You" 100 0 false false true cards;
   mkPlayer types "CPU 1" 100 0 false false false [3; 4]%nat].

Definition idle : @PokerEngine types :=
  mkEngine types false false None [] (seats []) 0%nat 0%nat.

Definition start (e : @PokerEngine types) : @PokerEngine types :=
  mkEngine types true false None [] (seats [1; 2]%nat) (rng e) 0%nat.

Definition step (e : @PokerEngine types) : @PokerEngine types :=
  if negb (hand_active e) || waiting_for_human e then e
  else
    match internals e with
    | O => mkEngine types true false None [] (players e) (rng e) 1%nat
    | S O => mkEngine types true true (Some the_prompt) [] (players e) (rng e) 2%nat
    | S (S O) => mkEngine types true false None [5; 6; 7]%nat (players e) (rng e) 3%nat
    | _ => mkEngine types false false None (board e) (players e) (rng e) 0%nat
    end.

Definition human_acts (action : string) (amt : Z) (e : @PokerEngine types)
  : @PokerEngine types :=
  if waiting_for_human e then
    mkEngine types true false None (board e) (players e) (rng e) (internals e)
  else e.

Definition settings0 : @GameSettings.t types :=
  GameSettings.mk types 2 1000 5 10 None (100, -2) (45, -2) 220 320.

Definition api : @PokerEngineAPI types :=
  {| default_settings := settings0;
     new_engine := fun _ => idle;
     start_new_hand := start;
     advance := step;
     apply_human_action := human_acts;
     estimate_win_prob := fun (r : @Rng types) _ _ _ _ =>
       (Raise (Exception "no estimate"), S r);
     float_literal := fun m e => (m, e);
     float_of_text := fun s => n ← Py.int s; Ok (n, 0);
     scale_iters := fun b => b * 6 / 10;
     format_odds := fun _ _ => "Win odds" |}.

(** A settings form with valid texts. *)
Definition form : SettingsForm :=
  mkForm "2" "100" "5" "10" "" "1" "0" "100" "100".

End Script.

(** ** Vocabulary of the statements *)

(** The advice for a spot is action [a], whatever the explanation. *)
Definition advises {PT : PyText} (r1 r2 : string) (suited : bool) (pos : string)
    (level : option string) (a : string) : Prop :=
  exists why, _trainer_advice r1 r2 suited pos level = Ok (a, why).

(** Beginner 0, Intermediate 1, Advanced 2. *)
Definition loosen_of {PT : PyText} (level : option string) : Z :=
  default 0 (loosen_table !! level_norm level).

(** The [k]-th entry of a list of rank values. *)
Definition entry (l : list Z) (k : Z) : Z := nth (Z.to_nat k) l 0.

(** The two ranks, higher first, as [_trainer_advice] reorders them. *)
Definition canonical (r1 r2 : string) (v1 v2 : Z) : string * string :=
  if v2 >? v1 then (r2, r1) else (r1, r2).

(** The guard of the rule for suited big cards, for a key whose lower rank
    has value [low]. *)
Definition suited_big (key : string * string) (low : Z) : bool :=
  bool_decide (key ∈ premiums) || bool_decide (key ∈ strong_broadways)
  || (bool_decide (key.1 ∈ ["A"; "K"; "Q"]) && (low >=? 10)).

(** The decimal numeral of a number that is not negative, as [str] prints
    it. *)
Definition numeral (n : Z) : string :=
  NilEmpty.string_of_uint (N.to_uint (Z.to_N n)).

(** The spec's sizing formulas. *)
Definition clamp (x lo hi : Z) : Z := Z.min (Z.max x lo) hi.

Definition DefaultBetSize (p : Prompt) (bigBlind : Z) : Z :=
  clamp (Z.max (2 * bigBlind) (pot p / 2)) 1 (you_stack p).

Definition DefaultRaiseSize (p : Prompt) : Z :=
  clamp (Z.max (min_raise_to p) (min_raise_to p + pot p / 2)) 1
        (you_stack p + you_bet_street p).

(** The estimate fails, whatever it is asked, on the generator the engine
    holds. *)
Definition est_fails {T : EngineTypes} {API : PokerEngineAPI} (e : PokerEngine) : Prop :=
  forall (cards table : list Card) (num_opps iters : Z),
  exists ex r, estimate_win_prob (rng e) cards table num_opps iters = (Raise ex, r).

(** Modelled from the spec: the engine is not under src/, and the program
    states nothing about how its attributes go together.  By the spec the
    snapshot has a prompt exactly when the engine waits for the human
    (section 3: [prompt], "present iff waitingForHuman"; "exists exactly when
    it is the human's turn"), and the engine waits for the human only within
    a hand (section 4.1: AwaitingHuman lies between Dealing and Settled). *)
Definition snapshot_ok {T : EngineTypes} (e : PokerEngine) : bool :=
  Bool.eqb (bool_decide (is_Some (prompt e))) (waiting_for_human e)
  && implb (waiting_for_human e) (hand_active e).

Definition nonneg (p : Prompt) : Prop :=
  0 <= to_call p /\ 0 <= min_raise_to p /\ 0 <= you_stack p
  /\ 0 <= you_bet_street p /\ 0 <= pot p.

(** ** Vocabulary of the further properties of the trainer *)

(** The thirteen ranks, as [RANK_VAL] lists them. *)
Definition ranks : list string :=
  ["2"; "3"; "4"; "5"; "6"; "7"; "8"; "9"; "T"; "J"; "Q"; "K"; "A"].

(** One position of each bucket: late, mid, and neither. *)
Definition bucket (pos : string) : string :=
  if late pos then "CO" else if mid pos then "HJ" else "UTG".

(** A check on the advice holds at every spot: all ranks, both suitedness
    values, one position per bucket and the three levels. *)
Definition all_spots (P : string -> string -> bool -> string -> string -> bool) : bool :=
  forallb (fun r1 =>
    forallb (fun r2 =>
      forallb (fun s =>
        forallb (fun p =>
          forallb (fun l => P r1 r2 s p l) levels)
          ["CO"; "HJ"; "UTG"])
        [true; false])
      ranks)
    ranks.

(** The action advised, when the call returns. *)
Definition action_of (r : result (string * string)) : option string :=
  match r with Ok (a, _) => Some a | Raise _ => None end.

(** Fold 0, Call 1, Raise 2. *)
Definition strength (a : string) : Z :=
  if String.eqb a "Raise" then 2 else if String.eqb a "Call" then 1 else 0.

Definition strength_of (r : result (string * string)) : Z :=
  match action_of r with Some a => strength a | None => -1 end.

(** The call returns one of the three verdicts. *)
Definition is_verdict (r : result (string * string)) : bool :=
  match action_of r with
  | Some a => bool_decide (a ∈ ["Raise"; "Call"; "Fold"])
  | None => false
  end.

#[global] Instance exn_eq_dec : EqDecision exn.
Proof. solve_decision. Defined.

#[global] Instance result_eq_dec {A} `{EqDecision A} : EqDecision (result A).
Proof. solve_decision. Defined.

(** The value of a rank, 0 for a text that is no rank. *)
Definition rank_of (r : string) : Z := default 0 (RANK_VAL !! r).

(** The two ranks, higher first. *)
Definition high_low (r1 r2 : string) : string * string :=
  canonical r1 r2 (rank_of r1) (rank_of r2).

(** How wide a position plays: late 2, mid 1, any other 0. *)
Definition width (pos : string) : Z :=
  if late pos then 2 else if mid pos then 1 else 0.

Definition advice_is (r : result (string * string)) (a : string) : bool :=
  bool_decide (action_of r = Some a).

(** The checks behind the properties of the advice, each on one spot, with
    the level one of the three names and the text functions the reference
    ones. *)

Definition check_verdict (r1 r2 : string) (s : bool) (p l : string) : bool :=
  is_verdict (_trainer_advice r1 r2 s p (Some l)).

Definition check_symmetric (r1 r2 : string) (s : bool) (p l : string) : bool :=
  bool_decide (_trainer_advice r1 r2 s p (Some l) = _trainer_advice r2 r1 s p (Some l)).

Definition check_offsuit (r1 r2 : string) (s : bool) (p l : string) : bool :=
  s || String.eqb r1 r2
  || advice_is (_trainer_advice r1 r2 s p (Some l))
       (if bool_decide (high_low r1 r2 ∈ offsuit_broadways) then "Raise" else "Fold").

Definition check_levels (r1 r2 : string) (s : bool) (p l : string) : bool :=
  (strength_of (_trainer_advice r1 r2 s p (Some "Beginner"))
   <=? strength_of (_trainer_advice r1 r2 s p (Some "Intermediate")))
  && (strength_of (_trainer_advice r1 r2 s p (Some "Intermediate"))
      <=? strength_of (_trainer_advice r1 r2 s p (Some "Advanced"))).

Definition check_positions (r1 r2 : string) (s : bool) (p l : string) : bool :=
  (strength_of (_trainer_advice r1 r2 s "UTG" (Some l))
   <=? strength_of (_trainer_advice r1 r2 s "HJ" (Some l)))
  && (strength_of (_trainer_advice r1 r2 s "HJ" (Some l))
      <=? strength_of (_trainer_advice r1 r2 s "CO" (Some l))).

Definition check_call (r1 r2 : string) (s : bool) (p l : string) : bool :=
  if advice_is (_trainer_advice r1 r2 s p (Some l)) "Call" then
    s && negb (String.eqb r1 r2) && negb (late p)
    && (mid p || String.eqb l "Advanced")
  else true.

Definition check_late_suited (r1 r2 : string) (s : bool) (p l : string) : bool :=
  if s && negb (String.eqb r1 r2) && late p then
    advice_is (_trainer_advice r1 r2 s p (Some l))
      (if (entry [10; 9; 8] (loosen_of (Some l)) <=? rank_of (high_low r1 r2).1)
          || bool_decide (high_low r1 r2 ∈ connectors (loosen_of (Some l)))
       then "Raise" else "Fold")
  else true.

(** Every letter of a text in lower case. *)
Fixpoint lower_text (s : string) : string :=
  match s with
  | EmptyString => EmptyString
  | String c s' => String (lower c) (lower_text s')
  end.

(** ** Vocabulary of the further properties of the controller *)

Section Armed.
Context {T : EngineTypes}.

(** The identifier stored is that of a pending auto-next-hand timer. *)
Definition stored_pending (g : PokerGUI) : Prop :=
  forall i, _auto_next_after_id g = Some i ->
            mkTimer i 1200 cb_auto_next_hand_if_idle ∈ pending g.

(** The auto-next-hand timer is armed exactly when no hand is active. *)
Definition armed (g : PokerGUI) : Prop :=
  if hand_active (engine g)
  then auto_next_pending g = [] /\ _auto_next_after_id g = None
  else exists i,
      auto_next_pending g = [mkTimer i 1200 cb_auto_next_hand_if_idle]
      /\ _auto_next_after_id g = Some i.

Definition steady (g : PokerGUI) : Prop :=
  timers_ok g /\ auto_advance_hand g = true /\ stored_pending g.
End Armed.

Section MoreShorthands.
Context {T : EngineTypes} {API : PokerEngineAPI}.

(** The preset a name selects: its own, or Normal for an unknown name. *)
Definition preset_for (name : string) : Preset :=
  default (mkPreset _ (float_literal 100 (-2)) (float_literal 45 (-2)) 220 320)
          (CPU_PRESETS !! name).
End MoreShorthands.

(** The iteration counts of the four presets; Normal's for any other name. *)
Definition preset_iters (name : string) : Z * Z :=
  if String.eqb name "Beginner" then (120, 180)
  else if String.eqb name "Strong" then (450, 650)
  else if String.eqb name "Pro" then (800, 1100)
  else (220, 320).

(** The four messages the settings dialog can leave in [err]. *)
Definition settings_errors : list string :=
  ["Invalid values."; "Players must be 2-9."; "Starting stack must be 20-10000.";
   "Require 0 < SB < BB."].

(** All characters of a text are white space. *)
Fixpoint all_space (s : string) : bool :=
  match s with
  | EmptyString => true
  | String c s' => isspace c && all_space s'
  end.

(** ** The preflop practice window *)

(** [str(n)] for an integer. *)
Definition str_int (n : Z) : string :=
  if n <? 0 then "-" +:+ numeral (- n) else numeral n.

Module Practice.

Definition SUIT_SYMBOL : gmap string string :=
  list_to_map [("s", "♠"); ("h", "♥"); ("d", "♦"); ("c", "♣")].

(** [d.get(key, fallback)] *)
Definition get_or {V} (d : gmap string V) (key : string) (fallback : V) : V :=
  default fallback (d !! key).

Definition _pretty_hand (r1 s1 r2 s2 : string) : string :=
  r1 +:+ get_or SUIT_SYMBOL s1 s1 +:+ "  " +:+ r2 +:+ get_or SUIT_SYMBOL s2 s2.

Definition suits : list string := ["s"; "h"; "d"; "c"].

Definition pos_choices : list string := ["UTG"; "HJ"; "CO"; "BTN"; "SB"].

Definition stacks : list Z := [20; 30; 40; 60; 100].

(** What [random] returns to one run of [deal_new], call by call: the
    sample of two ranks, the two suits, whether [random.random()] fell below
    0.25, and the choices made only on some paths or last: the second suit of
    a pair, the position, the effective stack. *)
Record Draws : Type := mkDraws {
  sampled : string * string;
  suit1 : string;
  suit2 : string;
  below_quarter : bool;
  pair_suit2 : string;
  position : string;
  stack_bb : Z
}.

(** [[x for x in suits if x != s1]] *)
Definition other_suits (s1 : string) : list string :=
  List.filter (fun x => negb (String.eqb x s1)) suits.

(** The draws are what [random.sample] and [random.choice] can return: two
    ranks from different places of the rank list, and members of the lists
    chosen from. *)
Definition fair (d : Draws) : bool :=
  bool_decide ((sampled d).1 ∈ ranks) && bool_decide ((sampled d).2 ∈ ranks)
  && negb (String.eqb (sampled d).1 (sampled d).2)
  && bool_decide (suit1 d ∈ suits) && bool_decide (suit2 d ∈ suits)
  && bool_decide (pair_suit2 d ∈ other_suits (suit1 d))
  && bool_decide (position d ∈ pos_choices)
  && bool_decide (stack_bb d ∈ stacks).

(** The variables of the window, the two names its closures share, the text
    box, and the deals that [win.after] has pending. *)
Record Window : Type := mkWindow {
  level_var : string;
  pos_focus_var : string;
  hand_var : string;
  spot_var : string;
  advice_var : string;
  feedback_var : string;
  txt : string;
  correct_action : string;
  expl : string;
  _auto_next_id : option nat;
  queued : list nat;
  next_id : nat
}.

Definition W (A : Type) : Type := Window -> result A * Window.

#[global] Instance W_ret : MRet W := fun A a w => (Ok a, w).

#[global] Instance W_bind : MBind W := fun A B k m w =>
  match m w with
  | (Ok a, w') => k a w'
  | (Raise e, w') => (Raise e, w')
  end.

Definition change (f : Window -> Window) : W unit := fun w => (Ok tt, f w).

Definition lift {A} (r : result A) : W A := fun w => (r, w).

Definition set_feedback (s : string) (w : Window) : Window :=
  mkWindow (level_var w) (pos_focus_var w) (hand_var w) (spot_var w) (advice_var w)
    s (txt w) (correct_action w) (expl w) (_auto_next_id w) (queued w) (next_id w).

Definition set_shown (hand spot : string) (w : Window) : Window :=
  mkWindow (level_var w) (pos_focus_var w) hand spot (advice_var w)
    (feedback_var w) (txt w) (correct_action w) (expl w) (_auto_next_id w)
    (queued w) (next_id w).

Definition set_advice (a why : string) (w : Window) : Window :=
  mkWindow (level_var w) (pos_focus_var w) (hand_var w) (spot_var w) a
    (feedback_var w) (txt w) a why (_auto_next_id w) (queued w) (next_id w).

Definition set_txt (s : string) (w : Window) : Window :=
  mkWindow (level_var w) (pos_focus_var w) (hand_var w) (spot_var w) (advice_var w)
    (feedback_var w) s (correct_action w) (expl w) (_auto_next_id w) (queued w)
    (next_id w).

Definition set_level (s : string) (w : Window) : Window :=
  mkWindow s (pos_focus_var w) (hand_var w) (spot_var w) (advice_var w)
    (feedback_var w) (txt w) (correct_action w) (expl w) (_auto_next_id w)
    (queued w) (next_id w).

Definition set_focus (s : string) (w : Window) : Window :=
  mkWindow (level_var w) s (hand_var w) (spot_var w) (advice_var w)
    (feedback_var w) (txt w) (correct_action w) (expl w) (_auto_next_id w)
    (queued w) (next_id w).

Definition set_queue (i : option nat) (q : list nat) (n : nat) (w : Window) : Window :=
  mkWindow (level_var w) (pos_focus_var w) (hand_var w) (spot_var w) (advice_var w)
    (feedback_var w) (txt w) (correct_action w) (expl w) i q n.

(** The spot one run of [deal_new] deals: the two cards, whether they are
    suited, and the position. *)
Record Spot : Type := mkSpot {
  r1 : string; s1 : string; r2 : string; s2 : string;
  suited : bool; pos : string
}.

Definition dealt (d : Draws) (focus : string) : Spot :=
  let '(r1, r2) := sampled d in
  let s1 := suit1 d in
  let s2 := suit2 d in
  let suited := String.eqb s1 s2 in
  (* Sometimes generate pairs *)
  let '(r2, s2, suited) :=
    if below_quarter d then (r1, pair_suit2 d, false) else (r2, s2, suited) in
  let pos := if String.eqb focus "Any" then position d else focus in
  mkSpot r1 s1 r2 s2 suited pos.

Definition deal_new {PT : PyText} (d : Draws) : W unit :=
  change (set_feedback "");;
  w ← (fun w => (Ok w, w));
  let spot := dealt d (pos_focus_var w) in
  let eff := stack_bb d in
  let hand := _pretty_hand (r1 spot) (s1 spot) (r2 spot) (s2 spot) in
  change (set_shown
            ("Hand: " +:+ hand)
            ("Spot: Unopened pot • Position: " +:+ pos spot
             +:+ " • Effective stack: " +:+ str_int eff +:+ "bb"));;
  advice ← lift (_trainer_advice (r1 spot) (r2 spot) (suited spot) (pos spot)
                   (Some (level_var w)));
  change (set_advice advice.1 advice.2);;
  (* Clear explanation until requested *)
  change (set_txt
            "Tap ‘Show why’ below to reveal the suggested default and the reasoning.").

Definition newline : string := String (chr 10) EmptyString.

Definition show_why : W unit := fun w =>
  (Ok tt,
   set_txt ("Suggested default: " +:+ correct_action w +:+ newline +:+ newline
            +:+ expl w) w).

(** [win.after(ms, deal_new)] and [win.after_cancel(id)]; every callback
    this window queues is [deal_new]. *)
Definition after_deal : W nat := fun w =>
  (Ok (next_id w),
   set_queue (_auto_next_id w) (queued w ++ [next_id w]) (S (next_id w)) w).

Definition after_cancel (id : nat) : W unit := fun w =>
  if existsb (Nat.eqb id) (queued w) then
    (Ok tt,
     set_queue (_auto_next_id w)
       (List.filter (fun j => negb (Nat.eqb j id)) (queued w)) (next_id w) w)
  else (Raise TclError, w).

(** [try: body / except Exception: pass] *)
Definition try_pass (body : W unit) : W unit := fun w =>
  match body w with
  | (Ok _, w') => (Ok tt, w')
  | (Raise _, w') => (Ok tt, w')
  end.

Definition choose (action : string) : W unit :=
  w ← (fun w => (Ok w, w));
  (if String.eqb action (correct_action w) then
     change (set_feedback "✅ Nice — that matches the suggested default.")
   else
     change (set_feedback ("❌ Suggested: " +:+ correct_action w
                           +:+ ". Tap ‘Show why’ to learn.")));;
  (* Auto move on after a short beat *)
  match _auto_next_id w with
  | Some id => try_pass (after_cancel id)
  | None => mret tt
  end;;
  id ← after_deal;
  change (fun w => set_queue (Some id) (queued w) (next_id w) w).

(** The window as [_open_preflop_practice] builds it, before its first
    deal. *)
Definition blank : Window :=
  mkWindow "Beginner" "Any" "" "" "" "" "" "Fold" "" None [] 0%nat.

Inductive action : Type :=
| Choose (a : string)
| DealNow (d : Draws)
| Due (id : nat) (d : Draws)
| ShowWhy
| SelectLevel (l : string)
| SelectFocus (p : string).

Definition react {PT : PyText} (a : action) : W unit :=
  match a with
  | Choose a => choose a
  | DealNow d => deal_new d
  | Due id d => fun w =>
      (* the timer leaves the queue, then [deal_new] runs *)
      if existsb (Nat.eqb id) (queued w) then
        deal_new d
          (set_queue (_auto_next_id w)
             (List.filter (fun j => negb (Nat.eqb j id)) (queued w)) (next_id w) w)
      else (Ok tt, w)
  | ShowWhy => show_why
  | SelectLevel l => change (set_level l)
  | SelectFocus p => change (set_focus p)
  end.

Fixpoint session {PT : PyText} (acts : list action) (w : Window) : Window :=
  match acts with
  | [] => w
  | a :: acts' => session acts' (snd (react a w))
  end.

(** The window once opened: built, then dealt to once. *)
Definition opened {PT : PyText} (d : Draws) : Window := snd (deal_new d blank).

(** The deals pending are what [_auto_next_id] names: at most one, and with
    an identifier already given out. *)
Definition tidy (w : Window) : Prop :=
  NoDup (queued w)
  /\ (forall j, j ∈ queued w -> _auto_next_id w = Some j)
  /\ (forall j, j ∈ queued w -> (j < next_id w)%nat).

End Practice.

(** * Properties *)

(** ** Amounts *)

Lemma try_int_total {PT : PyText} (raw : string) :
  try_except_ValueError (n ← int raw; Ok (Z.max 0 n)) (Ok 0)
  = Ok (match int_opt raw with Some n => Z.max 0 n | None => 0 end).
Proof.
  unfold int. destruct (int_opt raw); reflexivity.
Qed.

Lemma parse_amount_value {PT : PyText} (amount_var : string) :
  _parse_amount amount_var
  = Ok (match int_opt (strip amount_var) with Some n => Z.max 0 n | None => 0 end).
Proof.
  unfold _parse_amount.
  destruct (String.eqb_spec (strip amount_var) "") as [E | _].
  - rewrite E, (int_opt_ascii "") by (try reflexivity; simpl; lia). reflexivity.
  - apply try_int_total.
Qed.

(** *** ASCII text stays ASCII, and does not grow, when stripped *)

Lemma lstrip_ascii (s : string) :
  is_ascii s = true ->
  is_ascii (lstrip s) = true /\ (String.length (lstrip s) <= String.length s)%nat.
Proof.
  induction s as [| c s IH]; [split; [reflexivity | simpl; lia] |].
  intros H. pose proof H as H'. simpl in H'. apply andb_true_iff in H' as [_ Hs].
  simpl. destruct (isspace c); [| split; [exact H | simpl; lia]].
  destruct (IH Hs) as [I L]. split; [exact I | simpl; lia].
Qed.

Lemma rstrip_ascii (s : string) :
  is_ascii s = true ->
  is_ascii (rstrip s) = true /\ (String.length (rstrip s) <= String.length s)%nat.
Proof.
  induction s as [| c s IH]; [split; [reflexivity | simpl; lia] |].
  intros H. simpl in H. apply andb_true_iff in H as [Hc Hs].
  destruct (IH Hs) as [I L]. simpl.
  destruct (rstrip s) as [| c' r] eqn:E.
  - destruct (isspace c); simpl; [split; [reflexivity | lia] |].
    rewrite Hc. split; [reflexivity | lia].
  - change (is_ascii (String c (String c' r)))
      with ((code c <? 128) && is_ascii (String c' r)).
    rewrite Hc, I. split; [reflexivity | simpl in *; lia].
Qed.

Lemma strip_ascii_text (s : string) :
  is_ascii s = true ->
  is_ascii (Py.strip s) = true
  /\ (String.length (Py.strip s) <= String.length s)%nat.
Proof.
  intros H. unfold Py.strip. destruct (lstrip_ascii s H) as [I L].
  destruct (rstrip_ascii (lstrip s) I) as [I' L']. split; [exact I' | lia].
Qed.

(** On an ASCII text of at most 640 characters [_parse_amount] is what the
    reference functions make it. *)
Lemma parse_amount_ascii {PT : PyText} (s : string) :
  is_ascii s = true -> (String.length s <= 640)%nat ->
  _parse_amount s = _parse_amount (PT := ascii_text) s.
Proof.
  intros H L. rewrite !parse_amount_value.
  destruct (strip_ascii_text s H) as [I K].
  rewrite (strip_ascii s H).
  change (strip (PyText := ascii_text) s) with (Py.strip s).
  rewrite (int_opt_ascii (Py.strip s) I) by lia. reflexivity.
Qed.

(** C6.  [_parse_amount] returns for every text of the amount entry, whatever
    [strip] and [int] make of it, and what it returns is not negative.  A
    text that is blank once stripped, a text that [int] rejects, and a text
    that [int] reads as a negative number all give 0; a text that [int]
    reads as a number that is not negative gives that number.  So the empty
    text, "abc" and "-5" give 0, and "12" gives 12. *)
Theorem parse_amount_never_raises {PT : PyText} :
  (forall raw : string,
      (exists n, _parse_amount raw = Ok n /\ 0 <= n)
      /\ (strip raw = "" -> _parse_amount raw = Ok 0)
      /\ (int (strip raw) = Raise ValueError -> _parse_amount raw = Ok 0)
      /\ (forall n, int (strip raw) = Ok n -> n < 0 -> _parse_amount raw = Ok 0)
      /\ (forall n, int (strip raw) = Ok n -> 0 <= n -> _parse_amount raw = Ok n))
  /\ _parse_amount "" = Ok 0
  /\ _parse_amount "abc" = Ok 0
  /\ _parse_amount "-5" = Ok 0
  /\ _parse_amount "12" = Ok 12.
Proof.
  split.
  2: { repeat split; (rewrite parse_amount_ascii; [reflexivity | reflexivity | simpl; lia]). }
  intros raw. rewrite parse_amount_value. unfold int.
  destruct (int_opt (strip raw)) as [m |] eqn:E.
  - repeat split.
    + exists (Z.max 0 m). split; [reflexivity | lia].
    + intros B. rewrite B in E.
      rewrite int_opt_ascii in E by (try reflexivity; simpl; lia). discriminate E.
    + discriminate.
    + intros n [= ->] Hn. f_equal. lia.
    + intros n [= ->] Hn. f_equal. lia.
  - repeat split; try discriminate; try reflexivity.
    exists 0. split; [reflexivity | lia].
Qed.

Lemma parse_amount_never_raises_witness :
  _parse_amount " 1_2 " = Ok 12 /\ _parse_amount "-5" = Ok 0.
Proof.
  split.
  - apply (proj1 (parse_amount_never_raises (PT := ascii_text)) " 1_2 ");
      [reflexivity | lia].
  - apply (proj1 (parse_amount_never_raises (PT := ascii_text)) "-5"
           : _ /\ _ /\ _ /\ _ /\ _) with (n := -5);
      [reflexivity | lia].
Defined.

(** ** Default sizing *)

Lemma act_amount_bet (p : Prompt) (bb amt : Z) :
  amt <= 0 ->
  act_amount "bet" (Some p) bb amt
  = Z.min (Z.max (bb * 2) (pot p / 2)) (you_stack p).
Proof.
  intros H. unfold act_amount.
  replace (amt <=? 0) with true by (symmetry; apply Z.leb_le; exact H).
  reflexivity.
Qed.

Lemma act_amount_raise (p : Prompt) (bb amt : Z) :
  amt <= 0 ->
  act_amount "raise" (Some p) bb amt
  = Z.min (Z.max (min_raise_to p) (min_raise_to p + pot p / 2))
          (you_stack p + you_bet_street p).
Proof.
  intros H. unfold act_amount.
  replace (amt <=? 0) with true by (symmetry; apply Z.leb_le; exact H).
  reflexivity.
Qed.

(** An amount that was entered, or an action other than bet and raise, or
    an absent prompt: the amount goes through as it is. *)
Lemma act_amount_kept (action : string) (prompt : option Prompt) (bb amt : Z) :
  0 < amt \/ (action <> "bet" /\ action <> "raise") \/ prompt = None ->
  act_amount action prompt bb amt = amt.
Proof.
  intros H. unfold act_amount. destruct prompt as [p |]; [| reflexivity].
  destruct H as [H | [[H1 H2] | H]]; [| | discriminate].
  - replace (amt <=? 0) with false by (symmetry; apply Z.leb_gt; exact H).
    rewrite andb_false_r. reflexivity.
  - rewrite bool_decide_eq_false_2; [reflexivity |].
    rewrite !elem_of_cons, elem_of_nil. tauto.
Qed.

(** C2, as stated, fails on the code in two ways.  With a big blind of 0 and
    an empty pot the bet default is 0, where the clamp with lower bound 1
    gives 1.  And for a stack that does not reach the minimum raise, the
    raise default is the whole stack, below [min_raise_to]. *)
Lemma default_sizing_as_stated_fails :
  let p1 := mkPrompt 0 0 10 0 0 in
  let p2 := mkPrompt 20 40 10 0 30 in
  (nonneg p1
   /\ act_amount "bet" (Some p1) 0 0 = 0
   /\ DefaultBetSize p1 0 = 1)
  /\ (nonneg p2
      /\ act_amount "raise" (Some p2) 10 0 = 10
      /\ ~ (min_raise_to p2 <= act_amount "raise" (Some p2) 10 0)).
Proof.
  cbv zeta. unfold nonneg. simpl.
  repeat split; try lia; try reflexivity.
Qed.

(** C2, amended.  For a prompt with non-negative fields and an entered amount
    that is absent or invalid (parsed as 0 or less), the amount substituted
    is [min(max(2 bb, pot // 2), you_stack)] for a bet and
    [min(max(min_raise_to, min_raise_to + pot // 2), you_stack +
    you_bet_street)] for a raise.  These are the clamped formulas whenever
    the big blind, respectively the minimum raise, is at least 1.  The bet
    default is at most [you_stack]; the raise default is at most
    [you_stack + you_bet_street], and at least [min_raise_to] whenever
    [min_raise_to] is within [you_stack + you_bet_street]. *)
Theorem default_sizing (p : Prompt) (bb amt : Z) :
  nonneg p -> amt <= 0 ->
  let bet := act_amount "bet" (Some p) bb amt in
  let rse := act_amount "raise" (Some p) bb amt in
  bet = Z.min (Z.max (2 * bb) (pot p / 2)) (you_stack p)
  /\ rse = Z.min (Z.max (min_raise_to p) (min_raise_to p + pot p / 2))
                 (you_stack p + you_bet_street p)
  /\ (1 <= bb -> bet = DefaultBetSize p bb)
  /\ (1 <= min_raise_to p -> rse = DefaultRaiseSize p)
  /\ bet <= you_stack p
  /\ rse <= you_stack p + you_bet_street p
  /\ (min_raise_to p <= you_stack p + you_bet_street p -> min_raise_to p <= rse).
Proof.
  intros (_ & Hm & Hs & Hb & Hp) Ha. cbv zeta.
  rewrite act_amount_bet, act_amount_raise by exact Ha.
  unfold DefaultBetSize, DefaultRaiseSize, clamp.
  assert (0 <= pot p / 2) by (apply Z.div_pos; lia).
  repeat split; try lia.
Qed.

Lemma default_sizing_witness :
  act_amount "bet" (Some (mkPrompt 0 20 100 0 15)) 10 0 = 20
  /\ act_amount "raise" (Some (mkPrompt 10 20 100 0 15)) 10 0 = 27.
Proof.
  pose proof (default_sizing (mkPrompt 0 20 100 0 15) 10 0) as H1.
  pose proof (default_sizing (mkPrompt 10 20 100 0 15) 10 0) as H2.
  split.
  - etransitivity; [apply H1; unfold nonneg; simpl; lia | reflexivity].
  - etransitivity; [apply H2; unfold nonneg; simpl; lia | reflexivity].
Defined.

(** ** Legal actions *)

(** What the code does on any engine: the guard on [hand_active] comes
    first. *)
Lemma legal_actions_guarded {T : EngineTypes} (e : PokerEngine) :
  (prompt e = None -> _legal_actions_now e = ∅)
  /\ (hand_active e = false -> _legal_actions_now e = ∅)
  /\ (forall p : Prompt,
        hand_active e = true -> prompt e = Some p ->
        (to_call p <= 0 -> _legal_actions_now e = {[ "check"; "bet"; "allin" ]})
        /\ (0 < to_call p ->
            _legal_actions_now e = {[ "fold"; "call"; "raise"; "allin" ]})).
Proof.
  unfold _legal_actions_now. repeat split.
  - intros ->. destruct (hand_active e); reflexivity.
  - intros ->. reflexivity.
  - rewrite H, H0. intros Hc.
    replace (to_call p <=? 0) with true by (symmetry; apply Z.leb_le; exact Hc).
    reflexivity.
  - rewrite H, H0. intros Hc.
    replace (to_call p <=? 0) with false by (symmetry; apply Z.leb_gt; exact Hc).
    reflexivity.
Qed.

Lemma snapshot_prompt_active {T : EngineTypes} (e : PokerEngine) (p : Prompt) :
  snapshot_ok e = true -> prompt e = Some p -> hand_active e = true.
Proof.
  unfold snapshot_ok. intros H Hp. rewrite Hp in H.
  apply andb_true_iff in H as [H1 H2].
  rewrite bool_decide_eq_true_2 in H1 by (eexists; reflexivity).
  destruct (waiting_for_human e); [| discriminate H1]. exact H2.
Qed.

(** C4.  On every snapshot the engine hands out — one with a prompt exactly
    when the human is awaited, which happens only within a hand —
    [_legal_actions_now] returns the empty set when the prompt is absent,
    and for a present prompt exactly {check, bet, allin} when
    [to_call <= 0] and exactly {fold, call, raise, allin} when
    [to_call > 0]. *)
Theorem legal_actions {T : EngineTypes} (e : PokerEngine) :
  snapshot_ok e = true ->
  (prompt e = None -> _legal_actions_now e = ∅)
  /\ (forall p : Prompt,
        prompt e = Some p ->
        (to_call p <= 0 -> _legal_actions_now e = {[ "check"; "bet"; "allin" ]})
        /\ (0 < to_call p ->
            _legal_actions_now e = {[ "fold"; "call"; "raise"; "allin" ]})).
Proof.
  intros S. destruct (legal_actions_guarded e) as (N & _ & P).
  split; [exact N |].
  intros p Hp. apply P; [| exact Hp].
  exact (snapshot_prompt_active e p S Hp).
Qed.

Lemma legal_actions_witness :
  _legal_actions_now
    (mkEngine Script.types true true (Some (mkPrompt 10 20 100 0 15))
              [] [] 0%nat 0%nat)
  = {[ "fold"; "call"; "raise"; "allin" ]}
  /\ _legal_actions_now Script.idle = ∅.
Proof.
  split.
  - apply (proj2 (legal_actions
                    (mkEngine Script.types true true (Some (mkPrompt 10 20 100 0 15))
                              [] [] 0%nat 0%nat) eq_refl)
             (mkPrompt 10 20 100 0 15)); [reflexivity | simpl; lia].
  - apply (proj1 (legal_actions Script.idle eq_refl)). reflexivity.
Defined.

(** ** The preflop trainer *)

Lemma rank_cases (r : string) (v : Z) :
  RANK_VAL !! r = Some v ->
  (r, v) ∈ [("2", 2); ("3", 3); ("4", 4); ("5", 5); ("6", 6); ("7", 7);
            ("8", 8); ("9", 9); ("T", 10); ("J", 11); ("Q", 12); ("K", 13);
            ("A", 14)].
Proof.
  intros H. unfold RANK_VAL in H. apply elem_of_list_to_map_2 in H. exact H.
Qed.

Lemma level_norm_cases {PT : PyText} (level : option string) :
  level_norm level = "Beginner" \/ level_norm level = "Intermediate"
  \/ level_norm level = "Advanced".
Proof.
  unfold level_norm. case_bool_decide as H; [| left; reflexivity].
  unfold levels in H. rewrite !elem_of_cons, elem_of_nil in H. tauto.
Qed.

(** The level enters the advice only through [level_norm]. *)
Lemma advice_level_norm {PT1 PT2 : PyText} (r1 r2 : string) (suited : bool)
    (pos : string) (l1 l2 : option string) :
  level_norm (PT := PT1) l1 = level_norm (PT := PT2) l2 ->
  _trainer_advice (PT := PT1) r1 r2 suited pos l1
  = _trainer_advice (PT := PT2) r1 r2 suited pos l2.
Proof.
  intros H. unfold _trainer_advice. rewrite H. reflexivity.
Qed.

(** A level that is absent or ASCII text is normalised as the reference
    functions normalise it. *)
Lemma level_text_ascii {PT : PyText} (level : option string) :
  (forall l, level = Some l -> is_ascii l = true) ->
  level_text level = level_text (PT := ascii_text) level.
Proof.
  intros H. unfold level_text.
  set (x := match level with
            | Some l => if truthy l then l else "Beginner"
            | None => "Beginner"
            end).
  assert (A : is_ascii x = true).
  { unfold x. destruct level as [l |]; [| reflexivity].
    destruct (truthy l); [apply H; reflexivity | reflexivity]. }
  destruct (strip_ascii_text x A) as [I _].
  rewrite (strip_ascii x A), (title_ascii _ I). reflexivity.
Qed.

Lemma level_norm_ascii {PT : PyText} (level : option string) :
  (forall l, level = Some l -> is_ascii l = true) ->
  level_norm level = level_norm (PT := ascii_text) level.
Proof.
  intros H. unfold level_norm. rewrite (level_text_ascii level H). reflexivity.
Qed.

Lemma advice_literal {PT : PyText} (r1 r2 : string) (suited : bool) (pos : string)
    (level : option string) :
  (forall l, level = Some l -> is_ascii l = true) ->
  _trainer_advice r1 r2 suited pos level
  = _trainer_advice (PT := ascii_text) r1 r2 suited pos level.
Proof.
  intros H. apply advice_level_norm, level_norm_ascii, H.
Qed.

(** The side condition of the three lemmas above, for a level written out. *)
Ltac ascii_level :=
  let E := fresh "E" in
  intros ? E; first [discriminate E | injection E as <-; reflexivity].

(** Read every level written out in the goal by the reference functions. *)
Ltac literal_levels :=
  repeat match goal with
         | |- context [@level_norm ?P ?l] =>
             lazymatch P with
             | ascii_text => fail
             | _ => rewrite (@level_norm_ascii P l) by ascii_level
             end
         end.

(** C10.  The level is stripped and title-cased, by whatever [strip] and
    [title] the interpreter has; a level that is then none of Beginner,
    Intermediate, Advanced — and so an absent level, the empty text and a
    blank text — is treated as Beginner, explanation included.  So
    "advanced " gives what "Advanced" gives, for all ranks, suitedness and
    positions, whether the call returns or raises on an unknown rank. *)
Theorem level_normalised {PT : PyText} (r1 r2 : string) (suited : bool)
    (pos : string) :
  (forall level : option string,
      level_text level ∉ levels ->
      _trainer_advice r1 r2 suited pos level
      = _trainer_advice r1 r2 suited pos (Some "Beginner"))
  /\ (forall level : option string,
        level_text level ∈ levels ->
        _trainer_advice r1 r2 suited pos level
        = _trainer_advice r1 r2 suited pos (Some (level_text level)))
  /\ _trainer_advice r1 r2 suited pos (Some "advanced ")
     = _trainer_advice r1 r2 suited pos (Some "Advanced")
  /\ _trainer_advice r1 r2 suited pos None
     = _trainer_advice r1 r2 suited pos (Some "Beginner")
  /\ _trainer_advice r1 r2 suited pos (Some "")
     = _trainer_advice r1 r2 suited pos (Some "Beginner")
  /\ _trainer_advice r1 r2 suited pos (Some "   ")
     = _trainer_advice r1 r2 suited pos (Some "Beginner")
  /\ _trainer_advice r1 r2 suited pos (Some "expert")
     = _trainer_advice r1 r2 suited pos (Some "Beginner").
Proof.
  assert (B : level_norm (Some "Beginner") = "Beginner")
    by (rewrite level_norm_ascii by ascii_level; reflexivity).
  split; [| split].
  - intros level H. apply advice_level_norm. rewrite B.
    unfold level_norm. rewrite bool_decide_eq_false_2 by exact H. reflexivity.
  - intros level H. apply advice_level_norm.
    unfold level_norm at 1. rewrite bool_decide_eq_true_2 by exact H.
    unfold levels in H. rewrite !elem_of_cons, elem_of_nil in H.
    destruct H as [-> | [-> | [-> | []]]];
      rewrite level_norm_ascii by ascii_level; reflexivity.
  - repeat split; apply advice_level_norm; literal_levels; reflexivity.
Qed.

Lemma level_normalised_witness :
  _trainer_advice "7" "2" false "UTG" (Some "pro")
  = _trainer_advice "7" "2" false "UTG" (Some "Beginner")
  /\ _trainer_advice "7" "2" false "UTG" (Some " INTERMEDIATE")
     = _trainer_advice "7" "2" false "UTG" (Some "Intermediate").
Proof.
  split.
  - apply (proj1 (level_normalised (PT := ascii_text) "7" "2" false "UTG") (Some "pro")).
    apply (proj1 (bool_decide_eq_false _)). vm_compute. reflexivity.
  - apply (proj1 (proj2 (level_normalised (PT := ascii_text) "7" "2" false "UTG"))
             (Some " INTERMEDIATE")).
    apply (proj1 (bool_decide_eq_true _)). vm_compute. reflexivity.
Defined.

(** The position enters the advice only through its buckets. *)
Lemma advice_cong {PT1 PT2 : PyText} (r1 r2 : string) (suited : bool)
    (p1 p2 : string) (l1 l2 : option string) :
  late p1 = late p2 -> mid p1 = mid p2 ->
  level_norm (PT := PT1) l1 = level_norm (PT := PT2) l2 ->
  _trainer_advice (PT := PT1) r1 r2 suited p1 l1
  = _trainer_advice (PT := PT2) r1 r2 suited p2 l2.
Proof.
  intros Hl Hm Hn. unfold _trainer_advice. cbv zeta.
  rewrite Hl, Hm, Hn. reflexivity.
Qed.

Lemma buckets_disjoint (pos : string) :
  (late pos = true -> mid pos = false)
  /\ (tight pos = true -> late pos = false /\ mid pos = false).
Proof.
  unfold late, mid, tight. split.
  - intros H. apply bool_decide_eq_true in H. apply bool_decide_eq_false.
    rewrite !elem_of_cons, elem_of_nil in *. intros [-> | [-> | []]];
      destruct H as [H | [H | []]]; discriminate H.
  - intros H. apply bool_decide_eq_true in H.
    rewrite !elem_of_cons, elem_of_nil in H. destruct H as [-> | []].
    split; reflexivity.
Qed.

(** Case analysis on a rank that [RANK_VAL] knows. *)
Ltac rank_split H :=
  apply rank_cases in H;
  repeat (apply elem_of_cons in H as [H | H]; [injection H as -> -> |]);
  [.. | apply elem_of_nil in H; destruct H].

Lemma advises_cong {PT1 PT2 : PyText} (r1 r2 : string) (suited : bool)
    (p1 p2 : string) (l1 l2 : option string) (a : string) :
  late p1 = late p2 -> mid p1 = mid p2 ->
  level_norm (PT := PT1) l1 = level_norm (PT := PT2) l2 ->
  advises (PT := PT1) r1 r2 suited p1 l1 a
  = advises (PT := PT2) r1 r2 suited p2 l2 a.
Proof.
  intros Hl Hm Hn. unfold advises.
  rewrite (advice_cong r1 r2 suited p1 p2 l1 l2 Hl Hm Hn). reflexivity.
Qed.

(** Put a representative position and level, read by the reference text
    functions, in the place of [pos] and [level] in the advice of the
    goal. *)
Ltac represent_as pos level p l L M E :=
  rewrite ?(fun r1 r2 s a =>
              advises_cong (PT2 := ascii_text) r1 r2 s pos p level (Some l) a L M E).

Ltac represent_level pos level p L M :=
  let E := fresh "E" in
  destruct (level_norm_cases level) as [E | [E | E]]; rewrite ?E;
  [ represent_as pos level p "Beginner" L M E
  | represent_as pos level p "Intermediate" L M E
  | represent_as pos level p "Advanced" L M E ].

Ltac represent pos level :=
  let L := fresh "L" in
  let M := fresh "M" in
  unfold loosen_of;
  destruct (late pos) eqn:L, (mid pos) eqn:M;
  [ exfalso; apply (buckets_disjoint pos) in L; congruence
  | represent_level pos level "CO" L M
  | represent_level pos level "HJ" L M
  | represent_level pos level "UTG" L M ].

Ltac decide_advice := unfold advises; vm_compute; eexists; reflexivity.

(** The same for a level written out, whatever the text functions. *)
Ltac decide_literal :=
  unfold advises; rewrite advice_literal by ascii_level;
  vm_compute; eexists; reflexivity.

(** C1, as stated, fails on the code: a pair of deuces on the button gets
    Raise at level Beginner, with a rank below 6.  This refutes the claim
    whichever way its condition is grouped: (mid or late) and rank at least
    the cut, or mid or (late and rank at least the cut). *)
Lemma pair_rule_as_stated_fails :
  ~ (forall (r : string) (v : Z) (suited : bool) (pos : string)
            (level : option string),
        RANK_VAL !! r = Some v ->
        v < entry [9; 8; 7] (loosen_of level) ->
        (advises r r suited pos level "Raise"
         <-> (mid pos = true \/ late pos = true)
             /\ entry [6; 5; 4] (loosen_of level) <= v))
  /\ ~ (forall (r : string) (v : Z) (suited : bool) (pos : string)
               (level : option string),
           RANK_VAL !! r = Some v ->
           v < entry [9; 8; 7] (loosen_of level) ->
           (advises r r suited pos level "Raise"
            <-> mid pos = true
                \/ (late pos = true /\ entry [6; 5; 4] (loosen_of level) <= v))).
Proof.
  split; intros H;
    destruct (H "2" 2 false "BTN" (Some "Beginner") eq_refl
                ltac:(vm_compute; reflexivity)) as [H1 _];
    [ destruct H1 as [_ H1]; [decide_advice |]
    | destruct H1 as [H1 | [_ H1]]; [decide_advice | discriminate H1 |] ];
    vm_compute in H1; apply H1; reflexivity.
Qed.

(** C1, amended.  For a pair whose rank is at or above the loosen-th entry of
    [9,8,7] the advice is Raise.  For a pair below it the advice is Raise
    exactly when the position is late {CO,BTN}, or the position is mid
    {HJ,SB} and the rank is at least the loosen-th entry of [6,5,4]; in every
    other pair case it is Fold. *)
Theorem pair_rule {PT : PyText} (r : string) (v : Z) (suited : bool)
    (pos : string) (level : option string) :
  RANK_VAL !! r = Some v ->
  let k := loosen_of level in
  let small := late pos = true \/ (mid pos = true /\ entry [6; 5; 4] k <= v) in
  (entry [9; 8; 7] k <= v -> advises r r suited pos level "Raise")
  /\ (v < entry [9; 8; 7] k ->
      (advises r r suited pos level "Raise" <-> small)
      /\ (~ small -> advises r r suited pos level "Fold")).
Proof.
  intros Hr. cbv zeta.
  assert (D : forall a b : string, a <> b ->
              advises r r suited pos level a -> ~ advises r r suited pos level b).
  { intros a b Hab [w1 H1] [w2 H2]. congruence. }
  assert (K : (entry [9; 8; 7] (loosen_of level) <= v ->
               advises r r suited pos level "Raise")
              /\ (v < entry [9; 8; 7] (loosen_of level) ->
                  advises r r suited pos level
                    (if late pos
                        || (mid pos && (entry [6; 5; 4] (loosen_of level) <=? v))
                     then "Raise" else "Fold"))).
  { clear D. represent pos level; rank_split Hr;
      (split; intros Hv; vm_compute in Hv;
       try (exfalso; apply Hv; reflexivity); try discriminate Hv);
      decide_advice. }
  destruct K as [K1 K2]. split; [exact K1 |].
  intros Hv. specialize (K2 Hv).
  destruct (late pos); simpl in K2.
  { split; [split; [left; reflexivity | intros _; exact K2] | intros N; exfalso; apply N; left; reflexivity]. }
  destruct (mid pos); simpl in K2.
  - destruct (Z.leb_spec (entry [6; 5; 4] (loosen_of level)) v) as [Hc | Hc].
    + split; [split; [right; split; [reflexivity | exact Hc] | intros _; exact K2] |].
      intros N. exfalso. apply N. right. split; [reflexivity | exact Hc].
    + split; [| intros _; exact K2].
      split; [intros R; exfalso; revert R; apply (D "Fold" "Raise"); [discriminate | exact K2] |].
      intros [F | [_ F]]; [discriminate F | lia].
  - split; [| intros _; exact K2].
    split; [intros R; exfalso; revert R; apply (D "Fold" "Raise"); [discriminate | exact K2] |].
    intros [F | [F _]]; discriminate F.
Qed.

Lemma pair_rule_witness :
  advises "2" "2" false "BTN" (Some "Beginner") "Raise"
  /\ advises "5" "5" false "UTG" (Some "Advanced") "Fold".
Proof.
  split.
  - apply (proj2 (pair_rule (PT := ascii_text) "2" 2 false "BTN" (Some "Beginner") eq_refl)).
    + vm_compute. reflexivity.
    + left. reflexivity.
  - apply (proj2 (pair_rule (PT := ascii_text) "5" 5 false "UTG" (Some "Advanced") eq_refl)).
    + vm_compute. reflexivity.
    + intros [F | [F _]]; discriminate F.
Defined.

Lemma connectors_widest (k : Z) (key : string * string) :
  key ∈ connectors k -> key ∈ connectors 2.
Proof.
  unfold connectors. change (2 >=? 1) with true. change (2 >=? 2) with true.
  cbv iota. destruct (k >=? 1), (k >=? 2); rewrite ?elem_of_union; tauto.
Qed.

(** Evaluate a membership hypothesis on concrete data. *)
Ltac eval_in H :=
  apply (proj2 (bool_decide_eq_true _)) in H; vm_compute in H; try discriminate H.

Ltac eval_notin H :=
  apply (proj2 (bool_decide_eq_false _)) in H; vm_compute in H; try discriminate H.

(** C7.  A suited hand of two different ranks that the rule for suited big
    cards does not match, and whose ranks, higher first, are in the connector
    set {98,T9,JT,QJ,KQ,87} — widened by {76,97,T8} from Intermediate on and
    by {65,86,J9} at Advanced — gets Raise in late position {CO,BTN}, Call
    in mid position {HJ,SB} and Fold at UTG.  So 98 suited on the button is a
    Raise at Beginner, and a Fold under the gun. *)
Theorem suited_connector_rule {PT : PyText} :
  (forall (r1 r2 : string) (v1 v2 : Z) (pos : string) (level : option string),
      RANK_VAL !! r1 = Some v1 -> RANK_VAL !! r2 = Some v2 ->
      let key := canonical r1 r2 v1 v2 in
      key.1 <> key.2 ->
      suited_big key (Z.min v1 v2) = false ->
      key ∈ connectors (loosen_of level) ->
      (late pos = true -> advises r1 r2 true pos level "Raise")
      /\ (mid pos = true -> advises r1 r2 true pos level "Call")
      /\ (tight pos = true -> advises r1 r2 true pos level "Fold"))
  /\ advises "9" "8" true "BTN" (Some "Beginner") "Raise"
  /\ advises "9" "8" true "UTG" (Some "Beginner") "Fold".
Proof.
  split; [| split; decide_literal].
  intros r1 r2 v1 v2 pos level H1 H2 key Hp Hb Hc. subst key.
  assert (K : advises r1 r2 true pos level
                (if late pos then "Raise" else if mid pos then "Call" else "Fold")).
  { pose proof (connectors_widest _ _ Hc) as Hw. revert Hc.
    rank_split H1; rank_split H2; eval_in Hw; clear Hw;
      vm_compute in Hb; try discriminate Hb; clear Hb Hp;
      represent pos level; intros Hc; eval_in Hc; decide_advice. }
  destruct (buckets_disjoint pos) as [D1 D2].
  repeat split.
  - intros L. rewrite L in K. exact K.
  - intros M. destruct (late pos); [specialize (D1 eq_refl); congruence |].
    rewrite M in K. exact K.
  - intros U. destruct (D2 U) as [L M]. rewrite L, M in K. exact K.
Qed.

Lemma suited_connector_rule_witness :
  advises "T" "J" true "CO" (Some "Beginner") "Raise"
  /\ advises "6" "5" true "SB" (Some "Advanced") "Call".
Proof.
  split.
  - apply (proj1 (suited_connector_rule (PT := ascii_text)) "T" "J" 10 11 "CO" (Some "Beginner"));
      [ reflexivity | reflexivity | vm_compute; discriminate | reflexivity
      | apply (proj1 (bool_decide_eq_true _)); vm_compute; reflexivity
      | reflexivity ].
  - apply (proj1 (suited_connector_rule (PT := ascii_text)) "6" "5" 6 5 "SB" (Some "Advanced"));
      [ reflexivity | reflexivity | vm_compute; discriminate | reflexivity
      | apply (proj1 (bool_decide_eq_true _)); vm_compute; reflexivity
      | reflexivity ].
Defined.

(** C8.  A suited hand of two different ranks that neither the rule for
    suited big cards nor the connector rule matches, with an ace as its high
    rank and a low rank of at least 5, gets Raise in mid {HJ,SB} and late
    {CO,BTN} position; outside those buckets it gets Call at Advanced
    (loosen 2) and Fold below. *)
Theorem suited_ace_rule {PT : PyText} (r1 r2 : string) (v1 v2 : Z)
    (pos : string) (level : option string) :
  RANK_VAL !! r1 = Some v1 -> RANK_VAL !! r2 = Some v2 ->
  let key := canonical r1 r2 v1 v2 in
  key.1 = "A" -> 5 <= Z.min v1 v2 ->
  key.1 <> key.2 ->
  suited_big key (Z.min v1 v2) = false ->
  key ∉ connectors (loosen_of level) ->
  (mid pos = true \/ late pos = true -> advises r1 r2 true pos level "Raise")
  /\ (mid pos = false -> late pos = false -> 2 <= loosen_of level ->
      advises r1 r2 true pos level "Call")
  /\ (mid pos = false -> late pos = false -> loosen_of level < 2 ->
      advises r1 r2 true pos level "Fold").
Proof.
  intros H1 H2 key Ha Hl Hp Hb Hc. subst key. clear Hc.
  assert (K : advises r1 r2 true pos level
                (if mid pos || late pos then "Raise"
                 else if loosen_of level >=? 2 then "Call" else "Fold")).
  { rank_split H1; rank_split H2; vm_compute in Ha; try discriminate Ha;
      vm_compute in Hb; try discriminate Hb;
      vm_compute in Hl; try (exfalso; apply Hl; reflexivity);
      vm_compute in Hp; try (exfalso; apply Hp; reflexivity);
      clear Ha Hb Hl Hp; represent pos level; decide_advice. }
  repeat split.
  - intros [M | L]; [rewrite M in K | rewrite L, orb_true_r in K]; exact K.
  - intros M L Hk. rewrite M, L in K. simpl in K.
    replace (loosen_of level >=? 2) with true in K; [exact K |].
    symmetry. apply Z.geb_le. exact Hk.
  - intros M L Hk. rewrite M, L in K. simpl in K.
    replace (loosen_of level >=? 2) with false in K; [exact K |].
    symmetry. rewrite Z.geb_leb. apply Z.leb_gt. exact Hk.
Qed.

Lemma suited_ace_rule_witness :
  advises "7" "A" true "HJ" (Some "Beginner") "Raise"
  /\ advises "A" "5" true "UTG" (Some "Advanced") "Call"
  /\ advises "A" "9" true "UTG" (Some "Intermediate") "Fold".
Proof.
  split; [| split].
  - apply (proj1 (suited_ace_rule (PT := ascii_text) "7" "A" 7 14 "HJ" (Some "Beginner")
                    eq_refl eq_refl eq_refl
                    ltac:(vm_compute; discriminate)
                    ltac:(vm_compute; discriminate)
                    eq_refl
                    ltac:(apply (proj1 (bool_decide_eq_false _)); vm_compute; reflexivity))).
    left. reflexivity.
  - apply (proj1 (proj2 (suited_ace_rule (PT := ascii_text) "A" "5" 14 5 "UTG" (Some "Advanced")
                           eq_refl eq_refl eq_refl
                           ltac:(vm_compute; discriminate)
                           ltac:(vm_compute; discriminate)
                           eq_refl
                           ltac:(apply (proj1 (bool_decide_eq_false _)); vm_compute; reflexivity))));
      [reflexivity | reflexivity | vm_compute; discriminate].
  - apply (proj2 (proj2 (suited_ace_rule (PT := ascii_text) "A" "9" 14 9 "UTG" (Some "Intermediate")
                           eq_refl eq_refl eq_refl
                           ltac:(vm_compute; discriminate)
                           ltac:(vm_compute; discriminate)
                           eq_refl
                           ltac:(apply (proj1 (bool_decide_eq_false _)); vm_compute; reflexivity))));
      reflexivity.
Defined.

(** ** The controller *)

Section ControllerFacts.

Context {T : EngineTypes} {API : PokerEngineAPI} {PT : PyText}.

Lemma bind_eq {A B} (m : M A) (k : A -> M B) (g g1 : PokerGUI) (a : A) :
  m g = (Ok a, g1) -> (m ≫= k) g = k a g1.
Proof.
  intros E. unfold mbind, M_bind. rewrite E. reflexivity.
Qed.

Lemma set_rng_same (e : PokerEngine) : set_rng (rng e) e = e.
Proof. destruct e. reflexivity. Qed.

Lemma set_engine_same (g : PokerGUI) : set_engine (engine g) g = g.
Proof. destruct g. reflexivity. Qed.

Lemma refresh_odds_returns (g : PokerGUI) :
  exists txt r,
    refresh_odds g = (Ok txt, set_engine (set_rng r (engine g)) g)
    /\ (est_fails (engine g) -> txt = "").
Proof.
  assert (Q : exists txt r,
             (Ok "", g) = (Ok txt, set_engine (set_rng r (engine g)) g)
             /\ (est_fails (engine g) -> txt = "")).
  { exists "", (rng (engine g)).
    rewrite set_rng_same, set_engine_same. split; reflexivity. }
  unfold refresh_odds. unfold mbind at 1. unfold M_bind, get.
  destruct (head _) as [hero |]; [| exact Q].
  destruct (hole hero) as [| c cs] eqn:Hh; [exact Q |].
  destruct (_ >? 0); [| exact Q].
  unfold try_except_Exception, mbind, M_bind, call_estimate.
  match goal with |- context [estimate_win_prob ?a ?b ?c ?d ?e] =>
    destruct (estimate_win_prob a b c d e) as [[wp | ex] r] eqn:Ee end.
  - eexists _, r. split; [reflexivity |].
    intros F.
    match type of Ee with estimate_win_prob _ ?b ?c ?d ?e = _ =>
      destruct (F b c d e) as (ex & r' & F') end.
    congruence.
  - exists "", r. split; reflexivity.
Qed.

Lemma drop_timer_absent (i : nat) (q : list timer) :
  existsb (has_id i) q = false -> drop_timer i q = q.
Proof.
  induction q as [| t q IH]; [reflexivity |]. simpl.
  intros H. apply orb_false_iff in H as [H1 H2].
  rewrite H1. simpl. rewrite (IH H2). reflexivity.
Qed.

Lemma refresh_returns (g : PokerGUI) :
  exists g',
    _refresh g = (Ok tt, g')
    /\ same_control g g'
    /\ timer_view g' = refresh_timers g
    /\ (est_fails (engine g) -> odds_var g' = "").
Proof.
  destruct (refresh_odds_returns g) as (txt & r & E & F).
  unfold _refresh. rewrite (bind_eq _ _ _ _ _ E).
  unfold refresh_timers, timer_view, same_control.
  repeat (unfold mbind, M_bind, modify, get, _highlight_legal_actions, mret, M_ret,
    try_except_Exception, after, after_cancel; cbn).
  destruct (hand_active (engine g)) eqn:Ha, (auto_advance_hand g) eqn:Hv,
    (_auto_next_after_id g) as [i |] eqn:Hi;
    cbn; try destruct (existsb (has_id i) (pending g)) eqn:X; cbn;
    eexists; (split; [reflexivity |]); cbn.
  all: repeat split; eauto.
  all: rewrite ?Hi, ?app_nil_r, ?(drop_timer_absent _ _ X); reflexivity.
Qed.


(** *** The timer queue *)

Lemma elem_of_drop_timer (i : nat) (q : list timer) (t : timer) :
  t ∈ drop_timer i q <-> t ∈ q /\ timer_id t <> i.
Proof.
  unfold drop_timer. rewrite !list_elem_of_In, filter_In.
  unfold has_id. rewrite negb_true_iff, Nat.eqb_neq. reflexivity.
Qed.

Lemma NoDup_drop_timer (i : nat) (q : list timer) :
  NoDup (timer_id <$> q) -> NoDup (timer_id <$> drop_timer i q).
Proof.
  induction q as [| t q IH]; [intros; constructor |].
  simpl. rewrite NoDup_cons. intros [Hn Hq].
  destruct (negb (has_id i t)); [| exact (IH Hq)].
  simpl. rewrite NoDup_cons. split; [| exact (IH Hq)].
  intros H. apply Hn. apply list_elem_of_fmap in H as (t' & E & H).
  apply list_elem_of_fmap. exists t'. split; [exact E |].
  apply elem_of_drop_timer in H. tauto.
Qed.

Lemma timers_ok_view (g g' : PokerGUI) :
  pending g' = pending g -> next_after_id g' = next_after_id g ->
  _auto_next_after_id g' = _auto_next_after_id g ->
  timers_ok g -> timers_ok g'.
Proof.
  unfold timers_ok. intros -> -> ->. tauto.
Qed.

Lemma timers_ok_drop (i : nat) (g : PokerGUI) :
  timers_ok g ->
  timers_ok (set_timers (drop_timer i (pending g)) (next_after_id g) g).
Proof.
  intros (N & F & I & A). unfold timers_ok. cbn.
  split; [apply NoDup_drop_timer, N |].
  split; [intros t Ht; apply elem_of_drop_timer in Ht; apply F; tauto |].
  split; [exact I |].
  intros t Ht. apply elem_of_drop_timer in Ht. apply A. tauto.
Qed.

Lemma timers_ok_after (ms : Z) (cb : callback) (g : PokerGUI) :
  cb <> cb_auto_next_hand_if_idle ->
  timers_ok g -> timers_ok (snd (after ms cb g)).
Proof.
  intros Hc (N & F & I & A). unfold timers_ok, after. cbn.
  split.
  { rewrite fmap_app. apply NoDup_app. split; [exact N |].
    split; [| apply NoDup_singleton].
    intros x Hx Hx'. cbn in Hx'. apply list_elem_of_singleton in Hx'. subst x.
    apply list_elem_of_fmap in Hx as (t & E & Ht). apply F in Ht. lia. }
  split.
  { intros t Ht. apply elem_of_app in Ht as [Ht | Ht].
    - apply F in Ht. lia.
    - apply list_elem_of_singleton in Ht. subst t. cbn. lia. }
  split; [intros i Hi; apply I in Hi; lia |].
  intros t Ht Hcb. apply elem_of_app in Ht as [Ht | Ht]; [apply A; assumption |].
  apply list_elem_of_singleton in Ht. subst t. cbn in Hcb. congruence.
Qed.

Lemma timers_ok_refresh (g g' : PokerGUI) :
  timers_ok g -> timer_view g' = refresh_timers g -> timers_ok g'.
Proof.
  intros (N & F & I & A). unfold timer_view, refresh_timers, timers_ok.
  destruct (negb (hand_active (engine g)) && auto_advance_hand g);
    destruct (_auto_next_after_id g) as [i |] eqn:Hi; intros [= -> -> -> _].
  - tauto.
  - split.
    { rewrite fmap_app. apply NoDup_app. split; [exact N |].
      split; [| apply NoDup_singleton].
      intros x Hx Hx'. cbn in Hx'. apply list_elem_of_singleton in Hx'. subst x.
      apply list_elem_of_fmap in Hx as (t & E & Ht). apply F in Ht. lia. }
    split.
    { intros t Ht. apply elem_of_app in Ht as [Ht | Ht].
      - apply F in Ht. lia.
      - apply list_elem_of_singleton in Ht. subst t. cbn. lia. }
    split; [intros i [= <-]; lia |].
    intros t Ht Hcb. apply elem_of_app in Ht as [Ht | Ht].
    + specialize (A t Ht Hcb). discriminate A.
    + apply list_elem_of_singleton in Ht. subst t. reflexivity.
  - split; [apply NoDup_drop_timer, N |].
    split; [intros t Ht; apply elem_of_drop_timer in Ht; apply F; tauto |].
    split; [discriminate |].
    intros t Ht Hcb. apply elem_of_drop_timer in Ht as [Ht Hne].
    specialize (A t Ht Hcb). congruence.
  - split; [exact N |]. split; [exact F |]. split; [discriminate |].
    intros t Ht Hcb. specialize (A t Ht Hcb). discriminate A.
Qed.

Lemma auto_next_at_most_one (g : PokerGUI) :
  timers_ok g -> (length (auto_next_pending g) <= 1)%nat.
Proof.
  intros (N & _ & _ & A). unfold auto_next_pending.
  revert N A. generalize (_auto_next_after_id g) as o.
  induction (pending g) as [| t q IH]; intros o N A; [simpl; lia |].
  simpl in N. apply NoDup_cons in N as [Hn N]. simpl.
  case_bool_decide as Hc; [| apply (IH o N); intros t' Ht'; apply A; right; exact Ht'].
  simpl.
  assert (E : List.filter
                (fun t => bool_decide (timer_cb t = cb_auto_next_hand_if_idle)) q = []).
  { destruct (List.filter _ q) as [| t' q'] eqn:Eq; [reflexivity |]. exfalso.
    assert (Ht' : In t' (List.filter
                           (fun t => bool_decide (timer_cb t = cb_auto_next_hand_if_idle)) q))
      by (rewrite Eq; left; reflexivity).
    apply filter_In in Ht' as [Ht' Hc']. apply bool_decide_eq_true in Hc'.
    apply list_elem_of_In in Ht'.
    pose proof (A t (list_elem_of_here _ _) Hc) as E1.
    pose proof (A t' (list_elem_of_further _ _ _ Ht') Hc') as E2.
    apply Hn. apply list_elem_of_fmap. exists t'. split; [congruence | exact Ht']. }
  rewrite E. simpl. lia.
Qed.


(** *** The callbacks *)

Lemma refresh_calls (g g' : PokerGUI) :
  timer_view g' = refresh_timers g ->
  exists ops, calls g' = calls g ++ ops
              /\ List.filter is_engine_call ops = []
              /\ List.filter schedules_cpu_loop ops = []
              /\ List.filter is_StartNewHand ops = [].
Proof.
  unfold timer_view, refresh_timers.
  destruct (hand_active (engine g)), (auto_advance_hand g); cbn;
    destruct (_auto_next_after_id g) as [i |]; intros [= _ _ _ ->];
    try destruct (existsb (has_id i) (pending g));
    eexists; (split; [try reflexivity; symmetry; apply app_nil_r |]);
    repeat split; reflexivity.
Qed.

Lemma cpu_loop_halts (g : PokerGUI) :
  negb (hand_active (engine g)) || waiting_for_human (engine g) = true ->
  _cpu_loop g = _refresh g.
Proof.
  intros H. unfold _cpu_loop. unfold mbind at 1. unfold M_bind, get.
  rewrite H. reflexivity.
Qed.

Lemma cpu_loop_goes_on (g : PokerGUI) :
  negb (hand_active (engine g)) || waiting_for_human (engine g) = false ->
  _cpu_loop g
  = (_refresh;; _ ← after 10 cb_cpu_loop; mret tt)
      (snd (engine_call Advance advance g)).
Proof.
  intros H. unfold _cpu_loop. unfold mbind at 1. unfold M_bind at 1. unfold get.
  rewrite H. reflexivity.
Qed.

Lemma refresh_then_after (cb : callback) (g1 : PokerGUI) :
  exists g2,
    (_refresh;; _ ← after 10 cb; mret tt) g1 = (Ok tt, snd (after 10 cb g2))
    /\ same_control g1 g2
    /\ timer_view g2 = refresh_timers g1
    /\ (est_fails (engine g1) -> odds_var g2 = "").
Proof.
  destruct (refresh_returns g1) as (g2 & E & C & V & O).
  exists g2. split; [| auto].
  rewrite (bind_eq _ _ _ _ _ E). reflexivity.
Qed.

(** *** What each callback comes to *)

Lemma next_hand_eq (g : PokerGUI) :
  _next_hand g
  = refresh_and_wake cb_cpu_loop
      (did Advance advance (did StartNewHand start_new_hand g)).
Proof. reflexivity. Qed.

Lemma act_eq (action : string) (g : PokerGUI) :
  let amt := act_amount action (prompt (engine g))
               (GameSettings.bb (settings g)) (entered g) in
  _act action g
  = refresh_and_wake cb_cpu_loop
      (did Advance advance
         (did (ApplyHumanAction action amt) (apply_human_action action amt) g)).
Proof.
  cbv zeta. unfold _act. unfold mbind at 1. unfold M_bind at 1. unfold get.
  unfold mbind at 1. unfold M_bind at 1. unfold lift.
  rewrite parse_amount_value. reflexivity.
Qed.

Lemma auto_next_eq (g : PokerGUI) :
  _auto_next_hand_if_idle g
  = if negb (hand_active (engine g))
    then _next_hand (set_auto_next_after_id None g)
    else (Ok tt, set_auto_next_after_id None g).
Proof.
  unfold _auto_next_hand_if_idle, mbind, M_bind, modify, get. cbn.
  destruct (hand_active (engine g)); reflexivity.
Qed.

Lemma fire_eq (id : nat) (g : PokerGUI) :
  fire id g
  = match List.find (has_id id) (pending g) with
    | Some t =>
        run_callback (timer_cb t)
          (set_timers (drop_timer id (pending g)) (next_after_id g) g)
    | None => (Ok tt, g)
    end.
Proof.
  unfold fire. unfold mbind at 1. unfold M_bind at 1. unfold get.
  destruct (List.find _ _); reflexivity.
Qed.

Lemma preset_eq (g : PokerGUI) :
  exists p,
    _apply_cpu_preset g
    = refresh_and_wake cb_next_hand
        (did NewEngine (fun _ => new_engine (preset_settings g p))
             (set_settings (preset_settings g p) g)).
Proof.
  eexists. unfold _apply_cpu_preset. unfold mbind at 1. unfold M_bind at 1.
  unfold get. reflexivity.
Qed.

Lemma apply_eq (f : SettingsForm) (g : PokerGUI) :
  (exists msg, apply f g = (Ok msg, g))
  \/ (exists s, apply f g
                = (_refresh;; mret "")
                    (did NewEngine (fun _ => new_engine s) (set_settings s g))).
Proof.
  unfold apply. destruct (read_form f) as [v | e]; [| left; eexists; reflexivity].
  repeat (match goal with |- context [if ?b then _ else _] => destruct b end;
          [left; eexists; reflexivity |]).
  right. eexists. reflexivity.
Qed.

(** *** The queue stays in order *)

Lemma ok_did (c : call) (f : PokerEngine -> PokerEngine) (g : PokerGUI) :
  timers_ok g -> timers_ok (did c f g).
Proof. apply timers_ok_view; reflexivity. Qed.

Lemma ok_refresh (g : PokerGUI) : timers_ok g -> timers_ok (snd (_refresh g)).
Proof.
  intros H. destruct (refresh_returns g) as (g' & E & _ & V & _).
  rewrite E. exact (timers_ok_refresh g g' H V).
Qed.

Lemma ok_refresh_and_wake (cb : callback) (g : PokerGUI) :
  cb <> cb_auto_next_hand_if_idle ->
  timers_ok g -> timers_ok (snd (refresh_and_wake cb g)).
Proof.
  intros Hc H. destruct (refresh_then_after cb g) as (g2 & E & _ & V & _).
  unfold refresh_and_wake. rewrite E.
  apply timers_ok_after; [exact Hc |]. exact (timers_ok_refresh g g2 H V).
Qed.

Lemma ok_next_hand (g : PokerGUI) : timers_ok g -> timers_ok (snd (_next_hand g)).
Proof.
  intros H. rewrite next_hand_eq.
  apply ok_refresh_and_wake; [discriminate |]. apply ok_did, ok_did, H.
Qed.

Lemma ok_cpu_loop (g : PokerGUI) : timers_ok g -> timers_ok (snd (_cpu_loop g)).
Proof.
  intros H.
  destruct (negb (hand_active (engine g)) || waiting_for_human (engine g)) eqn:C.
  - rewrite (cpu_loop_halts g C). apply ok_refresh, H.
  - rewrite (cpu_loop_goes_on g C).
    apply (ok_refresh_and_wake cb_cpu_loop); [discriminate |]. apply ok_did, H.
Qed.

Lemma ok_act (action : string) (g : PokerGUI) :
  timers_ok g -> timers_ok (snd (_act action g)).
Proof.
  intros H. rewrite act_eq.
  apply ok_refresh_and_wake; [discriminate |]. apply ok_did, ok_did, H.
Qed.

Lemma ok_preset (g : PokerGUI) :
  timers_ok g -> timers_ok (snd (_apply_cpu_preset g)).
Proof.
  intros H. destruct (preset_eq g) as (p & ->).
  apply ok_refresh_and_wake; [discriminate |]. apply ok_did.
  revert H. apply timers_ok_view; reflexivity.
Qed.

Lemma ok_apply (f : SettingsForm) (g : PokerGUI) :
  timers_ok g -> timers_ok (snd (apply f g)).
Proof.
  intros H. destruct (apply_eq f g) as [(msg & ->) | (s & ->)]; [exact H |].
  destruct (refresh_returns (did NewEngine (fun _ => new_engine s) (set_settings s g)))
    as (g' & E & _ & V & _).
  rewrite (bind_eq _ _ _ _ _ E). cbn.
  refine (timers_ok_refresh _ g' _ V). apply ok_did.
  revert H. apply timers_ok_view; reflexivity.
Qed.

Lemma no_auto_pending (g : PokerGUI) :
  timers_ok g -> _auto_next_after_id g = None -> auto_next_pending g = [].
Proof.
  intros (_ & _ & _ & A) Hi. unfold auto_next_pending.
  destruct (List.filter _ _) as [| t q] eqn:E; [reflexivity |]. exfalso.
  assert (Ht : In t (List.filter
                       (fun t => bool_decide (timer_cb t = cb_auto_next_hand_if_idle))
                       (pending g))) by (rewrite E; left; reflexivity).
  apply filter_In in Ht as [Ht Hc]. apply bool_decide_eq_true in Hc.
  apply list_elem_of_In in Ht. specialize (A t Ht Hc). congruence.
Qed.

Lemma ok_fire (id : nat) (g : PokerGUI) :
  timers_ok g -> timers_ok (snd (fire id g)).
Proof.
  intros H. rewrite fire_eq.
  destruct (List.find (has_id id) (pending g)) as [t |] eqn:Hf; [| exact H].
  pose proof (timers_ok_drop id g H) as Hd.
  destruct (timer_cb t) eqn:Hc; cbn [run_callback].
  - apply ok_next_hand, Hd.
  - apply ok_cpu_loop, Hd.
  - apply find_some in Hf as [Ht Hid]. apply list_elem_of_In in Ht.
    unfold has_id in Hid. apply Nat.eqb_eq in Hid.
    assert (Hn : timers_ok
                   (set_auto_next_after_id None
                      (set_timers (drop_timer id (pending g)) (next_after_id g) g))).
    { destruct H as (N & F & I & A). destruct Hd as (N' & F' & _ & _).
      unfold timers_ok. cbn in *.
      split; [exact N' |]. split; [exact F' |]. split; [discriminate |].
      intros t' Ht' Hc'. exfalso. apply elem_of_drop_timer in Ht' as [Ht' Hne].
      pose proof (A t Ht Hc) as E1. pose proof (A t' Ht' Hc') as E2. congruence. }
    rewrite auto_next_eq. cbn [engine set_timers].
    destruct (negb _); [apply ok_next_hand, Hn | exact Hn].
Qed.

Lemma ok_handle (i : input) (g : PokerGUI) : timers_ok g -> timers_ok (handle i g).
Proof.
  intros H. unfold handle. destruct i; cbn [dispatch].
  - apply ok_fire, H.
  - apply ok_next_hand, H.
  - apply ok_act, H.
  - exact H.
  - exact H.
  - apply ok_preset, H.
  - pose proof (ok_apply f g H) as K. unfold mbind, M_bind.
    destruct (apply f g) as [[msg | e] g']; exact K.
Qed.

Lemma ok_init : timers_ok __init__.
Proof.
  unfold __init__. apply (ok_refresh_and_wake cb_next_hand); [discriminate |].
  unfold timers_ok, fresh. cbn.
  split; [constructor |]. split; [intros t Ht; inversion Ht |].
  split; [discriminate |]. intros t Ht; inversion Ht.
Qed.

Lemma ok_mainloop (inputs : list input) (g : PokerGUI) :
  timers_ok g -> timers_ok (mainloop inputs g).
Proof.
  revert g. induction inputs as [| i inputs IH]; intros g H; [exact H |].
  simpl. apply IH, ok_handle, H.
Qed.


(** *** One step of the drive loop *)


(** *** Starting a hand *)

Lemma next_hand_cancels (g : PokerGUI) :
  timers_ok g ->
  let g' := snd (_next_hand g) in
  (exists rest, calls g' = calls g ++ StartNewHand :: rest)
  /\ (hand_active (engine g') = true ->
      auto_next_pending g' = [] /\ _auto_next_after_id g' = None).
Proof.
  intros H. cbv zeta. rewrite next_hand_eq.
  set (g1 := did Advance advance (did StartNewHand start_new_hand g)).
  assert (H1 : timers_ok g1) by apply ok_did, ok_did, H.
  destruct (refresh_then_after cb_cpu_loop g1) as (g2 & E & C & V & _).
  unfold refresh_and_wake. rewrite E.
  destruct (refresh_calls g1 g2 V) as (ops & Ec & _).
  split.
  { eexists. cbn. rewrite Ec. unfold g1. cbn. rewrite <- !app_assoc. reflexivity. }
  cbn. intros Ha.
  destruct C as ((r & Ce) & _). rewrite Ce in Ha.
  change (hand_active (engine g1) = true) in Ha.
  pose proof (timers_ok_refresh g1 g2 H1 V) as H2.
  assert (Hi : _auto_next_after_id g2 = None).
  { revert V. unfold timer_view, refresh_timers. rewrite Ha.
    change (negb true && auto_advance_hand g1) with false. cbv iota zeta.
    destruct (_auto_next_after_id g1); intros V; injection V as _ _ V _; exact V. }
  split; [| exact Hi].
  pose proof (no_auto_pending g2 H2 Hi) as Hn.
  unfold auto_next_pending in *. cbn. rewrite List.filter_app, Hn. reflexivity.
Qed.

Lemma preset_calls (g : PokerGUI) :
  let g' := snd (_apply_cpu_preset g) in
  exists new id,
    calls g' = calls g ++ new
    /\ List.filter is_StartNewHand new = []
    /\ last (pending g') = Some (mkTimer id 10 cb_next_hand).
Proof.
  cbv zeta. destruct (preset_eq g) as (p & ->).
  match goal with |- context [refresh_and_wake _ ?x] => set (g1 := x) end.
  destruct (refresh_then_after cb_next_hand g1) as (g2 & E & _ & V & _).
  unfold refresh_and_wake. rewrite E.
  destruct (refresh_calls g1 g2 V) as (ops & Ec & _ & _ & F).
  exists ([NewEngine] ++ ops ++ [After (next_after_id g2) 10 cb_next_hand]),
    (next_after_id g2).
  split; [cbn; rewrite Ec; unfold g1; cbn; rewrite <- !app_assoc; reflexivity |].
  split; [cbn [app List.filter is_StartNewHand]; rewrite List.filter_app, F; reflexivity |].
  cbn. apply last_snoc.
Qed.

Lemma apply_calls (f : SettingsForm) (g : PokerGUI) :
  let g' := snd (apply f g) in
  exists new, calls g' = calls g ++ new /\ List.filter is_StartNewHand new = [].
Proof.
  cbv zeta. destruct (apply_eq f g) as [(msg & ->) | (s & ->)].
  { exists []. split; [symmetry; apply app_nil_r | reflexivity]. }
  match goal with |- context [(_ ;; _) ?x] => set (g1 := x) end.
  destruct (refresh_returns g1) as (g2 & E & _ & V & _).
  rewrite (bind_eq _ _ _ _ _ E). cbn.
  destruct (refresh_calls g1 g2 V) as (ops & Ec & _ & _ & F).
  exists ([NewEngine] ++ ops).
  split; [rewrite Ec; unfold g1; cbn; rewrite <- !app_assoc; reflexivity |].
  cbn [app List.filter is_StartNewHand]. exact F.
Qed.

(** C3, amended.  In every state the main loop reaches, at most one
    auto-next-hand timer is pending.  New Hand, and the New Hand that a
    CPU-preset change queues, start the hand first; the refresh that
    follows cancels a pending auto-next-hand timer whenever the hand is
    then active, so that none is pending and none is stored afterwards.
    A CPU-preset change starts no hand itself and queues New Hand; a
    settings change starts no hand itself. *)
Theorem auto_next_timer_discipline (inputs : list input) :
  let g := mainloop inputs __init__ in
  (length (auto_next_pending g) <= 1)%nat
  /\ (let g' := handle NewHand g in
      (exists rest, calls g' = calls g ++ StartNewHand :: rest)
      /\ (hand_active (engine g') = true ->
          auto_next_pending g' = [] /\ _auto_next_after_id g' = None))
  /\ (forall (id : nat) (t : timer),
        List.find (has_id id) (pending g) = Some t ->
        timer_cb t = cb_next_hand ->
        let g' := handle (Fire id) g in
        (exists rest, calls g' = calls g ++ StartNewHand :: rest)
        /\ (hand_active (engine g') = true ->
            auto_next_pending g' = [] /\ _auto_next_after_id g' = None))
  /\ (let g' := handle ApplyPreset g in
      exists new id,
        calls g' = calls g ++ new
        /\ List.filter is_StartNewHand new = []
        /\ last (pending g') = Some (mkTimer id 10 cb_next_hand))
  /\ (forall f : SettingsForm,
        let g' := handle (ApplySettings f) g in
        exists new,
          calls g' = calls g ++ new /\ List.filter is_StartNewHand new = []).
Proof.
  cbv zeta. pose proof (ok_mainloop inputs __init__ ok_init) as H.
  set (g := mainloop inputs __init__) in *.
  split; [apply auto_next_at_most_one, H |].
  split; [apply (next_hand_cancels g H) |].
  split.
  { intros id t Hf Hc. unfold handle. cbn [dispatch]. rewrite fire_eq, Hf, Hc.
    cbn [run_callback].
    apply (next_hand_cancels _ (timers_ok_drop id g H)). }
  split; [apply preset_calls |].
  intros f. unfold handle. cbn [dispatch].
  destruct (apply_calls f g) as (new & E & F). exists new.
  unfold mbind, M_bind. destruct (apply f g) as [[msg | e] g']; split; assumption.
Qed.

Lemma refresh_and_wake_returns (cb : callback) (g : PokerGUI) :
  exists g', refresh_and_wake cb g = (Ok tt, g').
Proof.
  destruct (refresh_then_after cb g) as (g2 & E & _). eexists. exact E.
Qed.

Lemma run_callback_returns (cb : callback) (g : PokerGUI) :
  exists g', run_callback cb g = (Ok tt, g').
Proof.
  destruct cb; cbn [run_callback].
  - rewrite next_hand_eq. apply refresh_and_wake_returns.
  - destruct (negb (hand_active (engine g)) || waiting_for_human (engine g)) eqn:C.
    + rewrite (cpu_loop_halts g C).
      destruct (refresh_returns g) as (g' & E & _). exists g'. exact E.
    + rewrite (cpu_loop_goes_on g C). apply refresh_and_wake_returns.
  - rewrite auto_next_eq. destruct (negb _); [| eexists; reflexivity].
    rewrite next_hand_eq. apply refresh_and_wake_returns.
Qed.

(** No exception leaves a callback, whatever the estimate does. *)
Lemma dispatch_returns (i : input) (g : PokerGUI) :
  exists g', dispatch i g = (Ok tt, g').
Proof.
  destruct i; cbn [dispatch].
  - rewrite fire_eq. destruct (List.find _ _); [| eexists; reflexivity].
    apply run_callback_returns.
  - rewrite next_hand_eq. apply refresh_and_wake_returns.
  - rewrite act_eq. apply refresh_and_wake_returns.
  - eexists. reflexivity.
  - eexists. reflexivity.
  - destruct (preset_eq g) as (p & ->). apply refresh_and_wake_returns.
  - destruct (apply_eq f g) as [(msg & E) | (s & E)].
    + eexists. rewrite (bind_eq _ _ _ _ _ E). reflexivity.
    + match type of E with _ = _ ?x => destruct (refresh_returns x) as (g' & R & _) end.
      rewrite (bind_eq _ _ _ _ _ R) in E.
      eexists. rewrite (bind_eq _ _ _ _ _ E). reflexivity.
Qed.
(** C9.  A refresh returns whatever the win-probability estimate does, and
    when the estimate fails the odds text is empty.  A step of the drive loop
    whose estimate fails still returns, with an empty odds text, and ends by
    queuing the next step: the failure does not stop the drive loop.  Nor
    does it stop anything else: every callback of the main loop returns. *)
Theorem estimation_failure_contained (g : PokerGUI) :
  (exists g', _refresh g = (Ok tt, g')
              /\ (est_fails (engine g) -> odds_var g' = ""))
  /\ (negb (hand_active (engine g)) || waiting_for_human (engine g) = false ->
      est_fails (advance (engine g)) ->
      exists g' id,
        _cpu_loop g = (Ok tt, g')
        /\ odds_var g' = ""
        /\ last (calls g') = Some (After id 10 cb_cpu_loop)
        /\ last (pending g') = Some (mkTimer id 10 cb_cpu_loop))
  /\ (forall i : input, exists g', dispatch i g = (Ok tt, g')).
Proof.
  split; [| split].
  - destruct (refresh_returns g) as (g' & E & _ & _ & O). exists g'. auto.
  - intros C F. rewrite (cpu_loop_goes_on g C).
    destruct (refresh_then_after cb_cpu_loop (snd (engine_call Advance advance g)))
      as (g2 & E & _ & _ & O).
    exists (snd (after 10 cb_cpu_loop g2)), (next_after_id g2).
    split; [exact E |]. cbn.
    split; [apply O, F |]. split; apply last_snoc.
  - intros i. apply dispatch_returns.
Qed.

End ControllerFacts.


(** C3, as stated, fails on the code.  With the scripted engine the GUI
    starts with an auto-next-hand timer pending; New Hand then starts the
    hand before anything is cancelled, and a settings change cancels
    nothing: the timer stays pending. *)
Lemma cancel_before_start_fails :
  ~ (forall (T : EngineTypes) (API : PokerEngineAPI) (inputs : list input) (i : nat),
        let g := mainloop inputs __init__ in
        _auto_next_after_id g = Some i ->
        existsb (has_id i) (pending g) = true ->
        cancelled_before_start i
          (drop (length (calls g)) (calls (handle NewHand g))) = true)
  /\ (let g := @__init__ Script.types Script.api in
      let g' := @handle Script.types Script.api ascii_text (ApplySettings Script.form) g in
      auto_next_pending g = [mkTimer 0 1200 cb_auto_next_hand_if_idle]
      /\ calls g' = calls g ++ [NewEngine]
      /\ auto_next_pending g' = auto_next_pending g).
Proof.
  split.
  - intros H. specialize (H Script.types Script.api [] 0%nat eq_refl eq_refl).
    vm_compute in H. discriminate H.
  - vm_compute. repeat split.
Qed.


Lemma auto_next_timer_discipline_witness :
  let g' := @handle Script.types Script.api ascii_text NewHand (@__init__ Script.types Script.api) in
  auto_next_pending g' = [] /\ _auto_next_after_id g' = None.
Proof.
  apply (@auto_next_timer_discipline Script.types Script.api ascii_text []). reflexivity.
Defined.


Lemma estimation_failure_contained_witness :
  let g := @handle Script.types Script.api ascii_text NewHand (@__init__ Script.types Script.api) in
  exists g' id,
    @_cpu_loop Script.types Script.api g = (Ok tt, g')
    /\ odds_var g' = ""
    /\ last (calls g') = Some (After id 10 cb_cpu_loop)
    /\ last (pending g') = Some (mkTimer id 10 cb_cpu_loop).
Proof.
  apply (@estimation_failure_contained Script.types Script.api ascii_text).
  - reflexivity.
  - intros cards table n iters. eexists _, _. reflexivity.
Defined.

(** ** Further properties of the preflop trainer *)

Lemma rank_in_ranks (r : string) (v : Z) : RANK_VAL !! r = Some v -> In r ranks.
Proof.
  intros H. apply rank_cases in H.
  repeat (apply elem_of_cons in H as [H | H]; [injection H as -> _; simpl; tauto |]).
  apply elem_of_nil in H. destruct H.
Qed.

Lemma bucket_cases (pos : string) :
  bucket pos = "CO" \/ bucket pos = "HJ" \/ bucket pos = "UTG".
Proof. unfold bucket. destruct (late pos), (mid pos); tauto. Qed.

Lemma bucket_late (pos : string) : late (bucket pos) = late pos.
Proof. unfold bucket. destruct (late pos) eqn:L, (mid pos) eqn:M; reflexivity. Qed.

Lemma bucket_mid (pos : string) : mid (bucket pos) = mid pos.
Proof.
  unfold bucket. destruct (late pos) eqn:L, (mid pos) eqn:M; try reflexivity.
  apply (buckets_disjoint pos) in L. congruence.
Qed.

Lemma level_norm_idem {PT : PyText} (level : option string) :
  level_norm (PT := ascii_text) (Some (level_norm level)) = level_norm level.
Proof.
  destruct (level_norm_cases level) as [E | [E | E]]; rewrite E; reflexivity.
Qed.

(** The advice at any position and level, whatever the text functions, is
    the advice at the position's representative and the normalised level. *)
Lemma advice_at_bucket {PT : PyText} (r1 r2 : string) (s : bool) (pos : string)
    (level : option string) :
  _trainer_advice r1 r2 s pos level
  = _trainer_advice (PT := ascii_text) r1 r2 s (bucket pos) (Some (level_norm level)).
Proof.
  apply advice_cong.
  - symmetry. apply bucket_late.
  - symmetry. apply bucket_mid.
  - symmetry. apply level_norm_idem.
Qed.

Lemma all_spots_at {PT : PyText}
    (P : string -> string -> bool -> string -> string -> bool)
    (r1 r2 : string) (v1 v2 : Z) (s : bool) (pos : string) (level : option string) :
  all_spots P = true ->
  RANK_VAL !! r1 = Some v1 -> RANK_VAL !! r2 = Some v2 ->
  P r1 r2 s (bucket pos) (level_norm level) = true.
Proof.
  unfold all_spots. intros H H1 H2.
  rewrite forallb_forall in H. specialize (H r1 (rank_in_ranks r1 v1 H1)).
  rewrite forallb_forall in H. specialize (H r2 (rank_in_ranks r2 v2 H2)).
  rewrite forallb_forall in H. specialize (H s ltac:(destruct s; simpl; tauto)).
  rewrite forallb_forall in H.
  specialize (H (bucket pos)
                ltac:(destruct (bucket_cases pos) as [-> | [-> | ->]]; simpl; tauto)).
  rewrite forallb_forall in H. apply H.
  destruct (level_norm_cases level) as [-> | [-> | ->]]; simpl; tauto.
Qed.

Lemma advice_returns {PT : PyText} (r1 r2 : string) (v1 v2 : Z) (s : bool)
    (pos : string) (level : option string) :
  RANK_VAL !! r1 = Some v1 -> RANK_VAL !! r2 = Some v2 ->
  exists a why,
    _trainer_advice r1 r2 s pos level = Ok (a, why)
    /\ (a = "Raise" \/ a = "Call" \/ a = "Fold").
Proof.
  intros H1 H2. rewrite advice_at_bucket.
  assert (A : all_spots check_verdict = true) by (vm_compute; reflexivity).
  pose proof (all_spots_at _ r1 r2 v1 v2 s pos level A H1 H2) as K.
  unfold check_verdict, is_verdict in K.
  destruct (_trainer_advice r1 r2 s (bucket pos) (Some (level_norm level)))
    as [[a why] | e]; [| discriminate K].
  exists a, why. split; [reflexivity |].
  simpl in K. apply bool_decide_eq_true in K.
  rewrite !elem_of_cons, elem_of_nil in K. tauto.
Qed.

(** X1.  [_trainer_advice] returns exactly when both ranks are among the
    thirteen, and then with Raise, Call or Fold.  A text that is no rank
    raises [KeyError] on that text, the second card's being looked up
    first. *)
Theorem advice_returns_iff_ranks_known {PT : PyText} (r1 r2 : string) (s : bool)
    (pos : string) (level : option string) :
  match RANK_VAL !! r2, RANK_VAL !! r1 with
  | None, _ => _trainer_advice r1 r2 s pos level = Raise (KeyError r2)
  | Some _, None => _trainer_advice r1 r2 s pos level = Raise (KeyError r1)
  | Some _, Some _ =>
      exists a why,
        _trainer_advice r1 r2 s pos level = Ok (a, why)
        /\ (a = "Raise" \/ a = "Call" \/ a = "Fold")
  end.
Proof.
  destruct (RANK_VAL !! r2) as [v2 |] eqn:H2.
  2: { unfold _trainer_advice, getitem. rewrite H2. reflexivity. }
  destruct (RANK_VAL !! r1) as [v1 |] eqn:H1.
  2: { unfold _trainer_advice, getitem. rewrite H2, H1. reflexivity. }
  exact (advice_returns r1 r2 v1 v2 s pos level H1 H2).
Qed.

Lemma rank_of_known (r : string) (v : Z) : RANK_VAL !! r = Some v -> rank_of r = v.
Proof. intros H. unfold rank_of. rewrite H. reflexivity. Qed.

Lemma high_low_canonical (r1 r2 : string) (v1 v2 : Z) :
  RANK_VAL !! r1 = Some v1 -> RANK_VAL !! r2 = Some v2 ->
  high_low r1 r2 = canonical r1 r2 v1 v2.
Proof.
  intros H1 H2. unfold high_low.
  rewrite (rank_of_known r1 v1 H1), (rank_of_known r2 v2 H2). reflexivity.
Qed.

Lemma advice_is_advises {PT : PyText} (r1 r2 : string) (s : bool) (pos : string)
    (level : option string) (a : string) :
  advice_is (_trainer_advice r1 r2 s pos level) a = true <->
  advises r1 r2 s pos level a.
Proof.
  unfold advice_is, advises, action_of. rewrite bool_decide_eq_true.
  destruct (_trainer_advice r1 r2 s pos level) as [[a' why] | e]; split.
  - intros [= ->]. exists why. reflexivity.
  - intros [w [= -> _]]. reflexivity.
  - discriminate.
  - intros [w E]. discriminate E.
Qed.

Lemma loosen_of_norm {PT : PyText} (level : option string) :
  loosen_of (PT := ascii_text) (Some (level_norm level)) = loosen_of level.
Proof. unfold loosen_of. rewrite level_norm_idem. reflexivity. Qed.

(** X2.  Swapping the two cards changes nothing: for known ranks the advice,
    explanation included, is the same in either order. *)
Theorem advice_symmetric {PT : PyText} (r1 r2 : string) (v1 v2 : Z) (s : bool)
    (pos : string) (level : option string) :
  RANK_VAL !! r1 = Some v1 -> RANK_VAL !! r2 = Some v2 ->
  _trainer_advice r1 r2 s pos level = _trainer_advice r2 r1 s pos level.
Proof.
  intros H1 H2. rewrite (advice_at_bucket r1 r2), (advice_at_bucket r2 r1).
  assert (A : all_spots check_symmetric = true) by (vm_compute; reflexivity).
  pose proof (all_spots_at _ r1 r2 v1 v2 s pos level A H1 H2) as K.
  unfold check_symmetric in K. apply bool_decide_eq_true in K. exact K.
Qed.

Lemma advice_symmetric_witness :
  _trainer_advice "8" "9" true "BTN" (Some "Beginner")
  = _trainer_advice "9" "8" true "BTN" (Some "Beginner").
Proof.
  apply (advice_symmetric (PT := ascii_text) "8" "9" 8 9); reflexivity.
Defined.

(** X3.  The premium hands AA, KK, QQ, JJ and AK, suited or not and in either
    order, get Raise in every position and at every level. *)
Theorem premiums_always_raise {PT : PyText} (r1 r2 : string) (s : bool)
    (pos : string) (level : option string) :
  (r1, r2) ∈ premiums \/ (r2, r1) ∈ premiums ->
  advises r1 r2 s pos level "Raise".
Proof.
  intros H. unfold premiums in H. rewrite !elem_of_union, !elem_of_singleton in H.
  repeat (destruct H as [H | H]); injection H as -> ->;
    destruct s; represent pos level; decide_advice.
Qed.

Lemma premiums_always_raise_witness :
  advises "K" "A" false "UTG" (Some "Beginner") "Raise".
Proof.
  apply (premiums_always_raise (PT := ascii_text)). right.
  apply (proj1 (bool_decide_eq_true _)). vm_compute. reflexivity.
Defined.

(** X4.  An offsuit hand of two different known ranks gets Raise when its
    ranks are AK, AQ or KQ, and Fold otherwise — at every position and every
    level, and never Call. *)
Theorem offsuit_rule {PT : PyText} (r1 r2 : string) (v1 v2 : Z) (pos : string)
    (level : option string) :
  RANK_VAL !! r1 = Some v1 -> RANK_VAL !! r2 = Some v2 -> r1 <> r2 ->
  advises r1 r2 false pos level
    (if bool_decide (canonical r1 r2 v1 v2 ∈ offsuit_broadways)
     then "Raise" else "Fold").
Proof.
  intros H1 H2 Hne. rewrite <- (high_low_canonical r1 r2 v1 v2 H1 H2).
  apply advice_is_advises. rewrite advice_at_bucket.
  assert (A : all_spots check_offsuit = true) by (vm_compute; reflexivity).
  pose proof (all_spots_at _ r1 r2 v1 v2 false pos level A H1 H2) as K.
  unfold check_offsuit in K.
  apply String.eqb_neq in Hne. rewrite Hne in K. exact K.
Qed.

Lemma offsuit_rule_witness :
  advises "Q" "A" false "UTG" (Some "Beginner") "Raise"
  /\ advises "J" "A" false "BTN" (Some "Advanced") "Fold".
Proof.
  split.
  - apply (offsuit_rule (PT := ascii_text) "Q" "A" 12 14); [reflexivity | reflexivity | discriminate].
  - apply (offsuit_rule (PT := ascii_text) "J" "A" 11 14); [reflexivity | reflexivity | discriminate].
Defined.

(** X5.  A higher level never tightens the advice: with Fold below Call below
    Raise, the action advised for a spot at a level is at most the action
    advised for the same spot at any looser level. *)
Theorem advice_monotone_in_level {PT : PyText} (r1 r2 : string) (v1 v2 : Z)
    (s : bool) (pos : string) (level1 level2 : option string) :
  RANK_VAL !! r1 = Some v1 -> RANK_VAL !! r2 = Some v2 ->
  loosen_of level1 <= loosen_of level2 ->
  strength_of (_trainer_advice r1 r2 s pos level1)
  <= strength_of (_trainer_advice r1 r2 s pos level2).
Proof.
  intros H1 H2 Hl.
  rewrite (advice_at_bucket r1 r2 s pos level1), (advice_at_bucket r1 r2 s pos level2).
  assert (A : all_spots check_levels = true) by (vm_compute; reflexivity).
  pose proof (all_spots_at _ r1 r2 v1 v2 s pos level1 A H1 H2) as K.
  unfold check_levels in K. apply andb_true_iff in K as [K1 K2].
  apply Z.leb_le in K1, K2. unfold loosen_of in Hl.
  destruct (level_norm_cases level1) as [E1 | [E1 | E1]];
    destruct (level_norm_cases level2) as [E2 | [E2 | E2]];
    rewrite E1, E2 in *; vm_compute in Hl; try (exfalso; apply Hl; reflexivity); lia.
Qed.

Lemma advice_monotone_in_level_witness :
  strength_of (_trainer_advice "7" "6" true "HJ" (Some "Beginner"))
  <= strength_of (_trainer_advice "7" "6" true "HJ" (Some "Intermediate")).
Proof.
  apply (advice_monotone_in_level (PT := ascii_text) "7" "6" 7 6); [reflexivity | reflexivity |].
  vm_compute. discriminate.
Defined.

Lemma width_bucket (pos : string) :
  (width pos = 2 /\ bucket pos = "CO") \/ (width pos = 1 /\ bucket pos = "HJ")
  \/ (width pos = 0 /\ bucket pos = "UTG").
Proof. unfold width, bucket. destruct (late pos), (mid pos); tauto. Qed.

(** X6.  A later position never tightens the advice: the action advised at
    UTG (or at any position outside the mid and late buckets) is at most
    the one advised in mid position, which is at most the one advised in
    late position. *)
Theorem advice_monotone_in_position {PT : PyText} (r1 r2 : string) (v1 v2 : Z)
    (s : bool) (pos1 pos2 : string) (level : option string) :
  RANK_VAL !! r1 = Some v1 -> RANK_VAL !! r2 = Some v2 ->
  width pos1 <= width pos2 ->
  strength_of (_trainer_advice r1 r2 s pos1 level)
  <= strength_of (_trainer_advice r1 r2 s pos2 level).
Proof.
  intros H1 H2 Hw.
  rewrite (advice_at_bucket r1 r2 s pos1), (advice_at_bucket r1 r2 s pos2).
  assert (A : all_spots check_positions = true) by (vm_compute; reflexivity).
  pose proof (all_spots_at _ r1 r2 v1 v2 s pos1 level A H1 H2) as K.
  unfold check_positions in K. apply andb_true_iff in K as [K1 K2].
  apply Z.leb_le in K1, K2.
  destruct (width_bucket pos1) as [[W1 B1] | [[W1 B1] | [W1 B1]]];
    destruct (width_bucket pos2) as [[W2 B2] | [[W2 B2] | [W2 B2]]];
    rewrite B1, B2; lia.
Qed.

Lemma advice_monotone_in_position_witness :
  strength_of (_trainer_advice "9" "8" true "UTG" None)
  <= strength_of (_trainer_advice "9" "8" true "SB" None).
Proof.
  apply (advice_monotone_in_position (PT := ascii_text) "9" "8" 9 8); [reflexivity | reflexivity |].
  vm_compute. discriminate.
Defined.

(** X7.  Call is advised only for a suited hand of two different ranks
    outside late position, and outside mid position only at level
    Advanced: never for a pair, never for an offsuit hand, never on CO or
    BTN. *)
Theorem call_only_suited_out_of_late {PT : PyText} (r1 r2 : string) (v1 v2 : Z)
    (s : bool) (pos : string) (level : option string) :
  RANK_VAL !! r1 = Some v1 -> RANK_VAL !! r2 = Some v2 ->
  advises r1 r2 s pos level "Call" ->
  s = true /\ r1 <> r2 /\ late pos = false
  /\ (mid pos = true \/ level_norm level = "Advanced").
Proof.
  intros H1 H2 Hc. apply advice_is_advises in Hc. rewrite advice_at_bucket in Hc.
  assert (A : all_spots check_call = true) by (vm_compute; reflexivity).
  pose proof (all_spots_at _ r1 r2 v1 v2 s pos level A H1 H2) as K.
  unfold check_call in K. rewrite Hc in K.
  rewrite bucket_late, bucket_mid in K.
  repeat (apply andb_true_iff in K as [K ?]).
  split; [assumption |]. split.
  { apply String.eqb_neq. apply negb_true_iff. assumption. }
  split; [apply negb_true_iff; assumption |].
  match goal with H : _ || _ = true |- _ => apply orb_true_iff in H as [H | H] end;
    [left; assumption | right; apply String.eqb_eq; assumption].
Qed.

Lemma call_only_suited_out_of_late_witness :
  true = true /\ "A" <> "7" /\ late "UTG" = false
  /\ (mid "UTG" = true \/ level_norm (Some "advanced") = "Advanced").
Proof.
  apply (call_only_suited_out_of_late (PT := ascii_text) "A" "7" 14 7 true "UTG" (Some "advanced"));
    [reflexivity | reflexivity | decide_advice].
Defined.

(** X8.  In late position a suited hand of two different ranks gets Raise
    exactly when its high rank reaches the level's cut (T, 9, 8) or its ranks
    are in the level's connector set; every other suited hand is folded
    there. *)
Theorem late_suited_rule {PT : PyText} (r1 r2 : string) (v1 v2 : Z)
    (pos : string) (level : option string) :
  RANK_VAL !! r1 = Some v1 -> RANK_VAL !! r2 = Some v2 -> r1 <> r2 ->
  late pos = true ->
  advises r1 r2 true pos level
    (if (entry [10; 9; 8] (loosen_of level) <=? Z.max v1 v2)
        || bool_decide (canonical r1 r2 v1 v2 ∈ connectors (loosen_of level))
     then "Raise" else "Fold").
Proof.
  intros H1 H2 Hne Hl.
  assert (Hm : rank_of (high_low r1 r2).1 = Z.max v1 v2).
  { rewrite (high_low_canonical r1 r2 v1 v2 H1 H2). unfold canonical.
    destruct (Z.gtb_spec v2 v1); simpl;
      [rewrite (rank_of_known r2 v2 H2) | rewrite (rank_of_known r1 v1 H1)]; lia. }
  rewrite <- (high_low_canonical r1 r2 v1 v2 H1 H2), <- Hm.
  apply advice_is_advises. rewrite advice_at_bucket.
  assert (A : all_spots check_late_suited = true) by (vm_compute; reflexivity).
  pose proof (all_spots_at _ r1 r2 v1 v2 true pos level A H1 H2) as K.
  unfold check_late_suited in K. rewrite bucket_late, Hl in K.
  apply String.eqb_neq in Hne. rewrite Hne in K. simpl in K.
  rewrite loosen_of_norm in K. exact K.
Qed.

Lemma late_suited_rule_witness :
  advises "A" "2" true "BTN" (Some "Beginner") "Raise"
  /\ advises "9" "4" true "CO" (Some "Beginner") "Fold".
Proof.
  split.
  - apply (late_suited_rule (PT := ascii_text) "A" "2" 14 2 "BTN" (Some "Beginner"));
      [reflexivity | reflexivity | discriminate | reflexivity].
  - apply (late_suited_rule (PT := ascii_text) "9" "4" 9 4 "CO" (Some "Beginner"));
      [reflexivity | reflexivity | discriminate | reflexivity].
Defined.

(** X9.  Only the bucket of the position matters: SB gets exactly what HJ
    gets, BTN exactly what CO gets, and every text that is none of HJ, SB,
    CO, BTN exactly what UTG gets — the explanation included, and also when
    the call raises. *)
Theorem position_by_bucket {PT : PyText} (r1 r2 : string) (s : bool)
    (level : option string) :
  _trainer_advice r1 r2 s "SB" level = _trainer_advice r1 r2 s "HJ" level
  /\ _trainer_advice r1 r2 s "BTN" level = _trainer_advice r1 r2 s "CO" level
  /\ (forall pos : string,
        pos ∉ ["HJ"; "SB"; "CO"; "BTN"] ->
        _trainer_advice r1 r2 s pos level = _trainer_advice r1 r2 s "UTG" level).
Proof.
  split; [apply advice_cong; reflexivity |].
  split; [apply advice_cong; reflexivity |].
  intros pos H. apply advice_cong; [| | reflexivity].
  - unfold late. change (bool_decide ("UTG" ∈ ["CO"; "BTN"])) with false.
    apply bool_decide_eq_false. intros K. apply H.
    rewrite !elem_of_cons in *. tauto.
  - unfold mid. change (bool_decide ("UTG" ∈ ["HJ"; "SB"])) with false.
    apply bool_decide_eq_false. intros K. apply H.
    rewrite !elem_of_cons in *. tauto.
Qed.

Lemma position_by_bucket_witness :
  _trainer_advice "9" "8" true "BB" None = _trainer_advice "9" "8" true "UTG" None.
Proof.
  apply (position_by_bucket (PT := ascii_text) "9" "8" true None).
  apply (proj1 (bool_decide_eq_false _)). vm_compute. reflexivity.
Defined.

(** *** Letter case of the level *)

Lemma lower_facts (c : ascii) :
  lower (lower c) = lower c /\ upper (lower c) = upper c
  /\ iscased (lower c) = iscased c /\ isspace (lower c) = isspace c.
Proof.
  destruct c as [[] [] [] [] [] [] [] []]; vm_compute; repeat split.
Qed.

Lemma title_from_lower (b : bool) (s : string) :
  title_from b (lower_text s) = title_from b s.
Proof.
  revert b. induction s as [| c s IH]; intros b; [reflexivity |].
  simpl. destruct (lower_facts c) as (E1 & E2 & E3 & _).
  rewrite E3, IH. destruct b; [rewrite E1 | rewrite E2]; reflexivity.
Qed.

Lemma lstrip_lower (s : string) : lstrip (lower_text s) = lower_text (lstrip s).
Proof.
  induction s as [| c s IH]; [reflexivity |].
  simpl. destruct (lower_facts c) as (_ & _ & _ & E). rewrite E.
  destruct (isspace c); [exact IH | reflexivity].
Qed.

Lemma rstrip_lower (s : string) : rstrip (lower_text s) = lower_text (rstrip s).
Proof.
  induction s as [| c s IH]; [reflexivity |].
  simpl. rewrite IH. destruct (lower_facts c) as (_ & _ & _ & E).
  destruct (rstrip s); simpl; [rewrite E; destruct (isspace c) |]; reflexivity.
Qed.

Lemma title_strip_lower (s : string) :
  Py.title (Py.strip (lower_text s)) = Py.title (Py.strip s).
Proof.
  unfold Py.title, Py.strip. rewrite lstrip_lower, rstrip_lower.
  apply title_from_lower.
Qed.

Lemma level_text_lower (l1 l2 : string) :
  lower_text l1 = lower_text l2 ->
  level_text (PT := ascii_text) (Some l1) = level_text (PT := ascii_text) (Some l2).
Proof.
  intros H. unfold level_text.
  change (title (PyText := ascii_text)) with Py.title.
  change (strip (PyText := ascii_text)) with Py.strip.
  assert (T : truthy l1 = truthy l2).
  { destruct l1, l2; try reflexivity; discriminate H. }
  rewrite T. destruct (truthy l2); [| reflexivity].
  rewrite <- (title_strip_lower l1), <- (title_strip_lower l2), H. reflexivity.
Qed.

(** X10.  The level is read without regard to letter case: two level texts
    that agree once their letters are lower-cased give the same advice, so
    "ADVANCED", "advanced" and "aDvAnCeD" all count as Advanced.  Stated of
    the reference text functions. *)
Theorem level_ignores_case (r1 r2 : string) (s : bool) (pos : string)
    (l1 l2 : string) :
  lower_text l1 = lower_text l2 ->
  _trainer_advice (PT := ascii_text) r1 r2 s pos (Some l1)
  = _trainer_advice (PT := ascii_text) r1 r2 s pos (Some l2).
Proof.
  intros H. apply advice_level_norm. unfold level_norm.
  rewrite (level_text_lower l1 l2 H). reflexivity.
Qed.

Lemma level_ignores_case_witness :
  _trainer_advice "A" "5" true "UTG" (Some "aDvAnCeD")
  = _trainer_advice "A" "5" true "UTG" (Some "ADVANCED").
Proof.
  apply level_ignores_case. reflexivity.
Defined.

(** ** Further properties of the controller *)

Section ControllerMore.
Context {T : EngineTypes} {API : PokerEngineAPI} {PT : PyText}.

Lemma auto_filter_app (q1 q2 : list timer) :
  List.filter (fun t => bool_decide (timer_cb t = cb_auto_next_hand_if_idle)) (q1 ++ q2)
  = List.filter (fun t => bool_decide (timer_cb t = cb_auto_next_hand_if_idle)) q1
    ++ List.filter (fun t => bool_decide (timer_cb t = cb_auto_next_hand_if_idle)) q2.
Proof. apply List.filter_app. Qed.

(** With the queue in order, the stored timer is the only auto-next-hand
    timer pending. *)
Lemma stored_is_only (g : PokerGUI) (i : nat) :
  timers_ok g -> _auto_next_after_id g = Some i ->
  mkTimer i 1200 cb_auto_next_hand_if_idle ∈ pending g ->
  auto_next_pending g = [mkTimer i 1200 cb_auto_next_hand_if_idle].
Proof.
  intros H Hi Hin.
  pose proof (auto_next_at_most_one g H) as L.
  assert (M : In (mkTimer i 1200 cb_auto_next_hand_if_idle) (auto_next_pending g)).
  { unfold auto_next_pending. apply filter_In. split.
    - apply list_elem_of_In. exact Hin.
    - apply bool_decide_eq_true. reflexivity. }
  destruct (auto_next_pending g) as [| t [| t' q]]; simpl in *.
  - destruct M.
  - destruct M as [-> | []]. reflexivity.
  - lia.
Qed.

Lemma steady_refresh (g g' : PokerGUI) :
  steady g -> same_control g g' -> timer_view g' = refresh_timers g ->
  steady g' /\ armed g'.
Proof.
  intros (H & Ha & Hs) ((r & Ce) & _ & Ca & _) V.
  pose proof (timers_ok_refresh g g' H V) as H'.
  assert (Ea : hand_active (engine g') = hand_active (engine g))
    by (rewrite Ce; reflexivity).
  unfold steady, armed, stored_pending. rewrite Ca, Ea.
  revert V. unfold timer_view, refresh_timers. rewrite Ha, andb_true_r.
  destruct (hand_active (engine g)) eqn:A; cbn [negb];
    destruct (_auto_next_after_id g) as [i |] eqn:Hi; intros V;
    injection V as Vp Vn Vi Vc.
  - split; [split; [exact H' | split; [reflexivity | intros j Hj; congruence]] |].
    split; [apply (no_auto_pending g' H' Vi) | exact Vi].
  - split; [split; [exact H' | split; [reflexivity | intros j Hj; congruence]] |].
    split; [apply (no_auto_pending g' H' Vi) | exact Vi].
  - assert (Hin : mkTimer i 1200 cb_auto_next_hand_if_idle ∈ pending g')
      by (rewrite Vp; apply Hs; exact Hi).
    split; [split; [exact H' | split; [reflexivity |]] |].
    + intros j Hj. rewrite Vi in Hj. injection Hj as <-. exact Hin.
    + exists i. split; [| exact Vi]. apply stored_is_only; assumption.
  - assert (Hin : mkTimer (next_after_id g) 1200 cb_auto_next_hand_if_idle ∈ pending g')
      by (rewrite Vp; apply elem_of_app; right; apply list_elem_of_here).
    split; [split; [exact H' | split; [reflexivity |]] |].
    + intros j Hj. rewrite Vi in Hj. injection Hj as <-. exact Hin.
    + exists (next_after_id g). split; [| exact Vi]. apply stored_is_only; assumption.
Qed.

Lemma steady_did (c : call) (f : PokerEngine -> PokerEngine) (g : PokerGUI) :
  steady g -> steady (did c f g).
Proof.
  intros (H & Ha & Hs). split; [apply ok_did, H |]. split; [exact Ha | exact Hs].
Qed.

Lemma steady_armed_after (ms : Z) (cb : callback) (g : PokerGUI) :
  cb <> cb_auto_next_hand_if_idle ->
  steady g -> armed g ->
  steady (snd (after ms cb g)) /\ armed (snd (after ms cb g)).
Proof.
  intros Hc (H & Ha & Hs) Hr. split.
  - split; [apply timers_ok_after; assumption |]. split; [exact Ha |].
    intros i Hi. cbn in *. apply elem_of_app. left. apply Hs, Hi.
  - unfold armed, auto_next_pending in *. cbn.
    rewrite auto_filter_app. cbn [List.filter timer_cb].
    rewrite bool_decide_eq_false_2 by exact Hc. rewrite app_nil_r. exact Hr.
Qed.

Lemma steady_refresh_and_wake (cb : callback) (g : PokerGUI) :
  cb <> cb_auto_next_hand_if_idle ->
  steady g ->
  steady (snd (refresh_and_wake cb g)) /\ armed (snd (refresh_and_wake cb g)).
Proof.
  intros Hc H. destruct (refresh_then_after cb g) as (g2 & E & C & V & _).
  unfold refresh_and_wake. rewrite E.
  destruct (steady_refresh g g2 H C V) as [S A].
  apply steady_armed_after; assumption.
Qed.

Lemma steady_only_refresh (g : PokerGUI) :
  steady g -> steady (snd (_refresh g)) /\ armed (snd (_refresh g)).
Proof.
  intros H. destruct (refresh_returns g) as (g' & E & C & V & _). rewrite E.
  exact (steady_refresh g g' H C V).
Qed.

Lemma find_has_id (id : nat) (q : list timer) (t : timer) :
  List.find (has_id id) q = Some t -> t ∈ q /\ timer_id t = id.
Proof.
  intros H. apply find_some in H as [Hin Hid]. split.
  - apply list_elem_of_In. exact Hin.
  - apply Nat.eqb_eq. exact Hid.
Qed.

Lemma same_id_same_timer (g : PokerGUI) (t t' : timer) :
  timers_ok g -> t ∈ pending g -> t' ∈ pending g -> timer_id t = timer_id t' -> t = t'.
Proof.
  intros (N & _) Ht Ht' E. revert N Ht Ht'.
  induction (pending g) as [| a q IH]; intros N Ht Ht'; [inversion Ht |].
  simpl in N. apply NoDup_cons in N as [Hn N].
  apply elem_of_cons in Ht as [-> | Ht]; apply elem_of_cons in Ht' as [-> | Ht'].
  - reflexivity.
  - exfalso. apply Hn. apply list_elem_of_fmap. exists t'. split; [exact E | exact Ht'].
  - exfalso. apply Hn. apply list_elem_of_fmap. exists t. split; [symmetry; exact E | exact Ht].
  - apply IH; assumption.
Qed.

Lemma steady_armed_fire (id : nat) (g : PokerGUI) :
  steady g -> armed g -> steady (snd (fire id g)) /\ armed (snd (fire id g)).
Proof.
  intros S A. rewrite fire_eq.
  destruct (List.find (has_id id) (pending g)) as [t |] eqn:Hf; [| split; assumption].
  destruct (find_has_id id _ t Hf) as [Ht Hid].
  destruct S as (H & Ha & Hs).
  set (gd := set_timers (drop_timer id (pending g)) (next_after_id g) g).
  assert (Hd : timers_ok gd) by apply timers_ok_drop, H.
  destruct (timer_cb t) eqn:Hc; cbn [run_callback].
  - assert (Sd : steady gd).
    { split; [exact Hd |]. split; [exact Ha |]. intros i Hi. cbn in *.
      apply elem_of_drop_timer. split; [apply Hs, Hi |]. cbn. intros ->.
      pose proof (same_id_same_timer g t _ H Ht (Hs _ Hi) Hid) as E.
      rewrite E in Hc. discriminate Hc. }
    rewrite next_hand_eq. apply steady_refresh_and_wake; [discriminate |].
    apply steady_did, steady_did, Sd.
  - assert (Sd : steady gd).
    { split; [exact Hd |]. split; [exact Ha |]. intros i Hi. cbn in *.
      apply elem_of_drop_timer. split; [apply Hs, Hi |]. cbn. intros ->.
      pose proof (same_id_same_timer g t _ H Ht (Hs _ Hi) Hid) as E.
      rewrite E in Hc. discriminate Hc. }
    destruct (negb (hand_active (engine gd)) || waiting_for_human (engine gd)) eqn:C.
    + rewrite (cpu_loop_halts gd C). apply steady_only_refresh, Sd.
    + rewrite (cpu_loop_goes_on gd C).
      apply (steady_refresh_and_wake cb_cpu_loop); [discriminate |].
      apply steady_did, Sd.
  - set (gn := set_auto_next_after_id None gd).
    assert (Hn : timers_ok gn).
    { destruct H as (N & F & I & Au). destruct Hd as (N' & F' & _ & _).
      unfold timers_ok. cbn in *.
      split; [exact N' |]. split; [exact F' |]. split; [discriminate |].
      intros t' Ht' Hc'. exfalso. apply elem_of_drop_timer in Ht' as [Ht' Hne].
      pose proof (Au t Ht Hc) as E1. pose proof (Au t' Ht' Hc') as E2. congruence. }
    assert (Sn : steady gn).
    { split; [exact Hn |]. split; [exact Ha |]. intros i Hi. discriminate Hi. }
    rewrite auto_next_eq. fold gn.
    destruct (hand_active (engine gd)) eqn:Act; cbn [negb].
    + cbn [snd]. split; [exact Sn |].
      assert (Eg : hand_active (engine gn) = true) by exact Act.
      unfold armed. rewrite Eg.
      split; [apply (no_auto_pending gn Hn) |]; reflexivity.
    + rewrite next_hand_eq. apply steady_refresh_and_wake; [discriminate |].
      apply steady_did, steady_did, Sn.
Qed.

Lemma steady_armed_handle (i : input) (g : PokerGUI) :
  steady g -> armed g -> steady (handle i g) /\ armed (handle i g).
Proof.
  intros S A. unfold handle. destruct i; cbn [dispatch].
  - apply steady_armed_fire; assumption.
  - rewrite next_hand_eq. apply steady_refresh_and_wake; [discriminate |].
    apply steady_did, steady_did, S.
  - rewrite act_eq. apply steady_refresh_and_wake; [discriminate |].
    apply steady_did, steady_did, S.
  - split; assumption.
  - split; assumption.
  - destruct (preset_eq g) as (p & ->).
    apply steady_refresh_and_wake; [discriminate |]. apply steady_did.
    destruct S as (H & Ha & Hs). split; [| split; assumption].
    revert H. apply timers_ok_view; reflexivity.
  - destruct (apply_eq f g) as [(msg & E) | (s & E)].
    + rewrite (bind_eq _ _ _ _ _ E). split; assumption.
    + match type of E with _ = _ ?x =>
        assert (Sx : steady x);
        [| destruct (refresh_returns x) as (g' & R & C & V & _);
           destruct (steady_refresh x g' Sx C V) as [S' A'] ] end.
      { apply steady_did. destruct S as (H & Ha & Hs). split; [| split; assumption].
        revert H. apply timers_ok_view; reflexivity. }
      rewrite (bind_eq _ _ _ _ _ R) in E. rewrite (bind_eq _ _ _ _ _ E).
      split; assumption.
Qed.

Lemma steady_armed_init : steady __init__ /\ armed __init__.
Proof.
  unfold __init__. apply (steady_refresh_and_wake cb_next_hand); [discriminate |].
  split; [| split; [reflexivity | intros i Hi; discriminate Hi]].
  unfold timers_ok, fresh. cbn.
  split; [constructor |]. split; [intros t Ht; inversion Ht |].
  split; [discriminate |]. intros t Ht; inversion Ht.
Qed.

Lemma steady_armed_mainloop (inputs : list input) (g : PokerGUI) :
  steady g -> armed g -> steady (mainloop inputs g) /\ armed (mainloop inputs g).
Proof.
  revert g. induction inputs as [| i inputs IH]; intros g S A; [split; assumption |].
  simpl. destruct (steady_armed_handle i g S A) as [S' A']. apply IH; assumption.
Qed.

(** X11.  In every state the main loop reaches, the auto-next-hand timer is
    armed exactly when no hand is active: with a hand active no such timer is
    pending and none is stored; with no hand active exactly one is pending,
    due 1200 ms after it was set, and it is the one stored. *)
Theorem auto_next_armed_iff_idle (inputs : list input) :
  let g := mainloop inputs __init__ in
  if hand_active (engine g)
  then auto_next_pending g = [] /\ _auto_next_after_id g = None
  else exists i,
      auto_next_pending g = [mkTimer i 1200 cb_auto_next_hand_if_idle]
      /\ _auto_next_after_id g = Some i.
Proof.
  destruct steady_armed_init as [S A].
  exact (proj2 (steady_armed_mainloop inputs __init__ S A)).
Qed.

(** *** The settings dialog *)

(** X12.  The settings dialog applies a form only when all its numbers parse
    and the players are 2 to 9, the starting stack 20 to 10000 and
    0 < SB < BB; the settings then stored keep those bounds, carry Monte
    Carlo iteration counts of at least 60, and the engine is rebuilt from
    them.  Any other form leaves one of four messages and changes nothing:
    settings, engine, timers and calls stay as they were. *)
Theorem settings_apply_validates (f : SettingsForm) (g : PokerGUI) :
  exists msg g',
    apply f g = (Ok msg, g')
    /\ if String.eqb msg ""
       then let s := settings g' in
            2 <= GameSettings.players s <= 9
            /\ 20 <= GameSettings.start_stack s <= 10000
            /\ 0 < GameSettings.sb s < GameSettings.bb s
            /\ 60 <= GameSettings.mc_iters_preflop s
            /\ 60 <= GameSettings.mc_iters_postflop s
            /\ (exists r, engine g' = set_rng r (new_engine s))
            /\ (exists v, read_form f = Ok v
                          /\ GameSettings.players s = GameSettings.players v
                          /\ GameSettings.start_stack s = GameSettings.start_stack v
                          /\ GameSettings.sb s = GameSettings.sb v
                          /\ GameSettings.bb s = GameSettings.bb v
                          /\ GameSettings.seed s = GameSettings.seed v)
       else g' = g /\ msg ∈ settings_errors.
Proof.
  unfold apply. destruct (read_form f) as [v | e] eqn:Ef.
  2: { eexists _, g. split; [reflexivity |]. cbn. split; [reflexivity |].
       unfold settings_errors. rewrite !elem_of_cons. tauto. }
  destruct (negb ((2 <=? GameSettings.players v) && (GameSettings.players v <=? 9))) eqn:C1.
  { eexists _, g. split; [reflexivity |]. cbn. split; [reflexivity |].
    unfold settings_errors. rewrite !elem_of_cons. tauto. }
  destruct (negb ((20 <=? GameSettings.start_stack v)
                  && (GameSettings.start_stack v <=? 10000))) eqn:C2.
  { eexists _, g. split; [reflexivity |]. cbn. split; [reflexivity |].
    unfold settings_errors. rewrite !elem_of_cons. tauto. }
  destruct (negb ((0 <? GameSettings.sb v) && (GameSettings.sb v <? GameSettings.bb v))) eqn:C3.
  { eexists _, g. split; [reflexivity |]. cbn. split; [reflexivity |].
    unfold settings_errors. rewrite !elem_of_cons. tauto. }
  do 2 (erewrite bind_eq by reflexivity).
  match goal with |- context [(_refresh ≫= _) ?x] =>
    destruct (refresh_returns x) as (g' & R & ((r & Ce) & Cs & _) & _) end.
  exists "", g'. split; [rewrite (bind_eq _ _ _ _ _ R); reflexivity |].
  cbn [String.eqb]. cbv zeta. rewrite Cs. cbn.
  apply negb_false_iff, andb_true_iff in C1 as [C1a C1b].
  apply negb_false_iff, andb_true_iff in C2 as [C2a C2b].
  apply negb_false_iff, andb_true_iff in C3 as [C3a C3b].
  repeat split; try lia.
  - exists r. rewrite Ce. reflexivity.
  - exists v. repeat split.
Qed.

(** *** CPU presets *)

Lemma preset_exact (g : PokerGUI) :
  _apply_cpu_preset g
  = refresh_and_wake cb_next_hand
      (did NewEngine
           (fun _ => new_engine (preset_settings g (preset_for (cpu_preset_var g))))
           (set_settings (preset_settings g (preset_for (cpu_preset_var g))) g)).
Proof. reflexivity. Qed.

Lemma preset_for_iters (name : string) :
  (mc_pre (preset_for name), mc_post (preset_for name)) = preset_iters name.
Proof.
  unfold preset_for, preset_iters.
  destruct (CPU_PRESETS !! name) as [p |] eqn:E.
  - unfold CPU_PRESETS in E. apply elem_of_list_to_map_2 in E.
    repeat (apply elem_of_cons in E as [E | E]; [injection E as -> ->; reflexivity |]).
    apply elem_of_nil in E. destruct E.
  - unfold CPU_PRESETS in E. apply not_elem_of_list_to_map in E. cbn in E.
    rewrite !elem_of_cons, elem_of_nil in E.
    destruct (String.eqb_spec name "Beginner"); [tauto |].
    destruct (String.eqb_spec name "Strong"); [tauto |].
    destruct (String.eqb_spec name "Pro"); [tauto |]. reflexivity.
Qed.

(** X13.  Applying a CPU preset keeps the table as it is — players, starting
    stack, blinds and seed — and sets the Monte Carlo iteration counts of
    the preset selected; a name that is no preset counts as Normal.  It
    always rebuilds the engine from the new settings and queues New Hand
    10 ms later. *)
Theorem preset_keeps_table (g : PokerGUI) :
  exists g' id,
    _apply_cpu_preset g = (Ok tt, g')
    /\ GameSettings.players (settings g') = GameSettings.players (settings g)
    /\ GameSettings.start_stack (settings g') = GameSettings.start_stack (settings g)
    /\ GameSettings.sb (settings g') = GameSettings.sb (settings g)
    /\ GameSettings.bb (settings g') = GameSettings.bb (settings g)
    /\ GameSettings.seed (settings g') = GameSettings.seed (settings g)
    /\ (GameSettings.mc_iters_preflop (settings g'),
        GameSettings.mc_iters_postflop (settings g'))
       = preset_iters (cpu_preset_var g)
    /\ (exists r, engine g' = set_rng r (new_engine (settings g')))
    /\ last (pending g') = Some (mkTimer id 10 cb_next_hand).
Proof.
  rewrite preset_exact.
  match goal with |- context [refresh_and_wake _ ?x] => set (g1 := x) end.
  destruct (refresh_then_after cb_next_hand g1) as (g2 & E & ((r & Ce) & Cs & _) & _).
  exists (snd (after 10 cb_next_hand g2)), (next_after_id g2).
  split; [exact E |]. cbn. rewrite Cs. unfold g1. cbn.
  repeat split.
  - apply preset_for_iters.
  - exists r. rewrite Ce. reflexivity.
  - apply last_snoc.
Qed.

(** *** Buttons *)

Lemma refresh_widgets (g : PokerGUI) :
  exists g',
    _refresh g = (Ok tt, g')
    /\ normal_buttons g' = refresh_buttons (engine g)
    /\ hot_buttons g'
       = (_legal_actions_now (engine g) ∩ refresh_buttons (engine g)) ∩ action_buttons.
Proof.
  destruct (refresh_odds_returns g) as (txt & r & E & _).
  unfold _refresh. rewrite (bind_eq _ _ _ _ _ E).
  repeat (unfold mbind, M_bind, modify, get, _highlight_legal_actions, mret, M_ret,
    try_except_Exception, after, after_cancel; cbn).
  destruct (hand_active (engine g)) eqn:Ha, (auto_advance_hand g) eqn:Hv,
    (_auto_next_after_id g) as [i |] eqn:Hi;
    cbn; try destruct (existsb (has_id i) (pending g)) eqn:X; cbn;
    eexists; (split; [reflexivity |]); cbn;
    unfold refresh_buttons, _legal_actions_now; cbn; rewrite ?Ha; split; reflexivity.
Qed.

(** X14.  After a refresh the highlighted buttons are legal actions whose
    button is enabled; no action button is enabled unless the human is
    awaited; and when the human is awaited in an active hand with a prompt
    whose amount to call is not negative, the enabled action buttons and the
    highlighted ones are exactly the legal actions. *)
Theorem buttons_follow_legal_actions (g : PokerGUI) :
  exists g',
    _refresh g = (Ok tt, g')
    /\ hot_buttons g' ⊆ _legal_actions_now (engine g) ∩ normal_buttons g'
    /\ (waiting_for_human (engine g) = false ->
        normal_buttons g' ∩ action_buttons = ∅)
    /\ (forall p : Prompt,
          waiting_for_human (engine g) = true -> hand_active (engine g) = true ->
          prompt (engine g) = Some p -> 0 <= to_call p ->
          normal_buttons g' = _legal_actions_now (engine g)
          /\ hot_buttons g' = _legal_actions_now (engine g)).
Proof.
  destruct (refresh_widgets g) as (g' & E & N & Hh). exists g'.
  split; [exact E |]. rewrite N, Hh. split.
  { intros x Hx. apply elem_of_intersection in Hx as [Hx _]. exact Hx. }
  split.
  - intros W. unfold refresh_buttons. rewrite W.
    destruct (negb (hand_active (engine g))); apply (bool_decide_unpack _);
      vm_compute; exact I.
  - intros p W A P C. unfold refresh_buttons, _legal_actions_now. rewrite W, A, P.
    cbn [negb].
    destruct (Z.eqb_spec (to_call p) 0) as [Z0 | Z0].
    + replace (to_call p <=? 0) with true by (symmetry; apply Z.leb_le; lia).
      split; apply (bool_decide_unpack _); vm_compute; exact I.
    + replace (to_call p <=? 0) with false by (symmetry; apply Z.leb_gt; lia).
      split; apply (bool_decide_unpack _); vm_compute; exact I.
Qed.

(** *** Submitting an action *)

(** X15.  Submitting an action makes exactly two calls on the engine, in this
    order: the action with its amount, then one advance; it ends by queuing
    a step of the drive loop.  An amount entered above 0 goes to the engine
    as entered, whatever the action. *)
Theorem act_calls (action : string) (g : PokerGUI) :
  let amt := act_amount action (prompt (engine g))
               (GameSettings.bb (settings g)) (entered g) in
  exists g' new id,
    _act action g = (Ok tt, g')
    /\ calls g' = calls g ++ new
    /\ List.filter is_engine_call new = [ApplyHumanAction action amt; Advance]
    /\ last new = Some (After id 10 cb_cpu_loop)
    /\ last (pending g') = Some (mkTimer id 10 cb_cpu_loop)
    /\ (0 < entered g -> amt = entered g).
Proof.
  cbv zeta. rewrite act_eq.
  match goal with |- context [refresh_and_wake _ ?x] => set (g1 := x) end.
  destruct (refresh_then_after cb_cpu_loop g1) as (g2 & E & _ & V & _).
  destruct (refresh_calls g1 g2 V) as (ops & Ec & F1 & _).
  eexists (snd (after 10 cb_cpu_loop g2)), (_ :: Advance :: ops ++ [_]), (next_after_id g2).
  split; [exact E |]. split.
  { cbn. rewrite Ec. unfold g1. cbn. rewrite <- !app_assoc. reflexivity. }
  split.
  { cbn [List.filter is_engine_call]. rewrite List.filter_app, F1. reflexivity. }
  split; [rewrite !last_cons, last_snoc; reflexivity |].
  split; [cbn; apply last_snoc |].
  intros Hp. apply act_amount_kept. left. exact Hp.
Qed.

End ControllerMore.

Lemma buttons_follow_legal_actions_witness :
  let g := @mainloop Script.types Script.api ascii_text [NewHand; Fire 2]
             (@__init__ Script.types Script.api) in
  exists g',
    @_refresh Script.types Script.api g = (Ok tt, g')
    /\ normal_buttons g' = _legal_actions_now (engine g)
    /\ hot_buttons g' = _legal_actions_now (engine g).
Proof.
  cbv zeta.
  destruct (@buttons_follow_legal_actions Script.types Script.api
              (@mainloop Script.types Script.api ascii_text [NewHand; Fire 2]
                 (@__init__ Script.types Script.api)))
    as (g' & E & _ & _ & L).
  exists g'. split; [exact E |].
  apply (L Script.the_prompt); [reflexivity | reflexivity | reflexivity |].
  vm_compute. discriminate.
Defined.

Lemma act_calls_witness :
  let g := @handle Script.types Script.api ascii_text (TypeAmount "25")
             (@__init__ Script.types Script.api) in
  exists g' new id,
    @_act Script.types Script.api ascii_text "bet" g = (Ok tt, g')
    /\ calls g' = calls g ++ new
    /\ List.filter is_engine_call new = [ApplyHumanAction "bet" 25; Advance]
    /\ last new = Some (After id 10 cb_cpu_loop).
Proof.
  cbv zeta.
  destruct (@act_calls Script.types Script.api ascii_text "bet"
              (@handle Script.types Script.api ascii_text (TypeAmount "25")
                 (@__init__ Script.types Script.api)))
    as (g' & new & id & E & C & F & La & _ & A).
  exists g', new, id. split; [exact E |]. split; [exact C |]. split; [| exact La].
  rewrite F, A; [reflexivity |]. vm_compute. reflexivity.
Defined.

(** *** White space around the amount *)

Lemma lstrip_spaces (w s : string) :
  all_space w = true -> lstrip (w +:+ s) = lstrip s.
Proof.
  induction w as [| c w IH]; [reflexivity |].
  simpl. intros H. apply andb_true_iff in H as [Hc Hw]. rewrite Hc. exact (IH Hw).
Qed.

Lemma lstrip_all_space (w : string) : all_space w = true -> lstrip w = "".
Proof.
  induction w as [| c w IH]; [reflexivity |].
  simpl. intros H. apply andb_true_iff in H as [Hc Hw]. rewrite Hc. exact (IH Hw).
Qed.

Lemma rstrip_all_space (w : string) : all_space w = true -> rstrip w = "".
Proof.
  induction w as [| c w IH]; [reflexivity |].
  simpl. intros H. apply andb_true_iff in H as [Hc Hw]. rewrite (IH Hw), Hc. reflexivity.
Qed.

Lemma rstrip_spaces (s w : string) :
  all_space w = true -> rstrip (s +:+ w) = rstrip s.
Proof.
  intros H. induction s as [| c s IH]; [apply rstrip_all_space, H |].
  simpl. rewrite IH. reflexivity.
Qed.

Lemma lstrip_app (s w : string) :
  all_space w = true ->
  rstrip (lstrip (s +:+ w)) = rstrip (lstrip s).
Proof.
  intros H. induction s as [| c s IH].
  - change ("" +:+ w) with w. rewrite (lstrip_all_space w H). reflexivity.
  - simpl. destruct (isspace c); [exact IH |].
    apply (rstrip_spaces (String c s) w H).
Qed.

Lemma strip_spaces (w1 s w2 : string) :
  all_space w1 = true -> all_space w2 = true ->
  Py.strip (w1 +:+ s +:+ w2) = Py.strip s.
Proof.
  intros H1 H2. unfold Py.strip. rewrite (lstrip_spaces w1 _ H1).
  apply lstrip_app, H2.
Qed.

(** X16.  White space before and after the amount does not matter: the
    amount read is the same with and without it.  Stated of the reference
    text functions. *)
Theorem parse_amount_ignores_spaces (w1 s w2 : string) :
  all_space w1 = true -> all_space w2 = true ->
  _parse_amount (PT := ascii_text) (w1 +:+ s +:+ w2)
  = _parse_amount (PT := ascii_text) s.
Proof.
  intros H1 H2. rewrite !parse_amount_value.
  change (strip (PyText := ascii_text)) with Py.strip.
  rewrite (strip_spaces w1 s w2 H1 H2). reflexivity.
Qed.

Lemma parse_amount_ignores_spaces_witness :
  _parse_amount ("  " +:+ "25" +:+ " ") = _parse_amount "25".
Proof.
  apply (parse_amount_ignores_spaces "  " "25" " "); reflexivity.
Defined.

(** ** The practice window *)

Section PracticeFacts.
Import Practice.

Lemma ranks_known (r : string) : r ∈ ranks -> exists v, RANK_VAL !! r = Some v.
Proof.
  unfold ranks. rewrite !elem_of_cons, elem_of_nil.
  intros H. repeat (destruct H as [-> | H]; [eexists; reflexivity |]). destruct H.
Qed.

Lemma other_suits_differ (a b : string) : b ∈ other_suits a -> b <> a.
Proof.
  unfold other_suits. rewrite list_elem_of_In, filter_In.
  intros [_ H]. apply negb_true_iff, String.eqb_neq in H. exact H.
Qed.

(** X17.  With draws that [random] can return, [deal_new] returns and deals a
    spot the trainer can judge: both ranks are known, so the advice is one of
    Raise, Call and Fold, and it is what the window stores and shows.  The two
    cards dealt are never the same card, a pair is never marked suited, the
    suited flag tells whether the two suits agree, and the position is the
    one in focus unless the focus is Any. *)
Theorem deal_new_deals_playable_spot {PT : PyText} (d : Draws) (w : Window) :
  fair d = true ->
  let spot := dealt d (pos_focus_var w) in
  exists w' a why,
    deal_new d w = (Ok tt, w')
    /\ _trainer_advice (r1 spot) (r2 spot) (suited spot) (pos spot)
         (Some (level_var w)) = Ok (a, why)
    /\ (a = "Raise" \/ a = "Call" \/ a = "Fold")
    /\ correct_action w' = a /\ advice_var w' = a /\ expl w' = why
    /\ feedback_var w' = ""
    /\ (r1 spot, s1 spot) <> (r2 spot, s2 spot)
    /\ (r1 spot = r2 spot -> suited spot = false)
    /\ (suited spot = true <-> s1 spot = s2 spot)
    /\ pos spot = (if String.eqb (pos_focus_var w) "Any" then position d
                   else pos_focus_var w).
Proof.
  unfold fair. intros F. repeat (apply andb_true_iff in F as [F ?]).
  repeat match goal with H : bool_decide _ = true |- _ => apply bool_decide_eq_true in H end.
  match goal with H : negb _ = true |- _ => apply negb_true_iff, String.eqb_neq in H end.
  cbv zeta. set (spot := dealt d (pos_focus_var w)).
  assert (K1 : r1 spot ∈ ranks).
  { unfold spot, dealt. destruct (sampled d), (below_quarter d); assumption. }
  assert (K2 : r2 spot ∈ ranks).
  { unfold spot, dealt. destruct (sampled d), (below_quarter d); assumption. }
  destruct (ranks_known _ K1) as [v1 V1]. destruct (ranks_known _ K2) as [v2 V2].
  destruct (advice_returns (r1 spot) (r2 spot) v1 v2 (suited spot) (pos spot)
              (Some (level_var w)) V1 V2) as (a & why & E & R).
  eexists _, a, why. split.
  { unfold deal_new, mbind, W_bind, change, lift. cbn. fold spot. rewrite E. reflexivity. }
  split; [exact E |]. split; [exact R |].
  cbn. repeat split.
  - unfold spot, dealt. destruct (sampled d) as [a1 a2], (below_quarter d); cbn in *.
    + intros [= E2]. revert E2. apply not_eq_sym, other_suits_differ. assumption.
    + intros [= E1 _]. contradiction.
  - unfold spot, dealt. destruct (sampled d) as [a1 a2], (below_quarter d); cbn in *.
    + reflexivity.
    + intros E1. contradiction.
  - unfold spot, dealt. destruct (sampled d) as [a1 a2], (below_quarter d); cbn in *.
    + discriminate.
    + apply String.eqb_eq.
  - unfold spot, dealt. destruct (sampled d) as [a1 a2], (below_quarter d); cbn in *.
    + intros E2. exfalso. symmetry in E2. revert E2. apply other_suits_differ. assumption.
    + apply String.eqb_eq.
  - unfold spot, dealt. destruct (sampled d) as [a1 a2], (below_quarter d); reflexivity.
Qed.

Lemma deal_new_deals_playable_spot_witness :
  let d := mkDraws ("9", "8") "s" "s" false "h" "BTN" 40 in
  fair d = true
  /\ exists w' a why,
       deal_new d blank = (Ok tt, w')
       /\ _trainer_advice "9" "8" true "BTN" (Some "Beginner") = Ok (a, why)
       /\ (a = "Raise" \/ a = "Call" \/ a = "Fold")
       /\ correct_action w' = a /\ advice_var w' = a /\ expl w' = why
       /\ feedback_var w' = ""
       /\ ("9", "s") <> ("8", "s")
       /\ ("9" = "8" -> true = false)
       /\ (true = true <-> "s" = "s")
       /\ "BTN" = "BTN".
Proof.
  split; [reflexivity |].
  apply (deal_new_deals_playable_spot (PT := ascii_text)
           (mkDraws ("9", "8") "s" "s" false "h" "BTN" 40) blank).
  reflexivity.
Defined.

Lemma deal_new_queue {PT : PyText} (d : Draws) (w : Window) :
  queued (snd (deal_new d w)) = queued w
  /\ _auto_next_id (snd (deal_new d w)) = _auto_next_id w
  /\ next_id (snd (deal_new d w)) = next_id w.
Proof.
  unfold deal_new, mbind, W_bind, change, lift. cbn -[_trainer_advice].
  destruct (_trainer_advice _ _ _ _ _) as [[a why] | e]; cbn; auto.
Qed.

Lemma elem_of_without (id j : nat) (q : list nat) :
  j ∈ List.filter (fun j => negb (Nat.eqb j id)) q <-> j ∈ q /\ j <> id.
Proof.
  rewrite !list_elem_of_In, filter_In, negb_true_iff, Nat.eqb_neq. reflexivity.
Qed.

Lemma NoDup_without (id : nat) (q : list nat) :
  NoDup q -> NoDup (List.filter (fun j => negb (Nat.eqb j id)) q).
Proof.
  induction 1 as [| x q Hx Hq IH]; cbn; [constructor |].
  destruct (negb (x =? id)%nat); [| exact IH].
  constructor; [| exact IH]. rewrite elem_of_without. tauto.
Qed.

Lemma tidy_at_most_one (w : Window) :
  tidy w -> queued w = [] \/ exists id, queued w = [id] /\ _auto_next_id w = Some id.
Proof.
  intros (N & S & _). destruct (queued w) as [| i [| j q]] eqn:E.
  - left. reflexivity.
  - right. exists i. split; [reflexivity |]. apply S. left.
  - exfalso. assert (Ei : _auto_next_id w = Some i) by (apply S; left).
    assert (Ej : _auto_next_id w = Some j) by (apply S; right; left).
    rewrite Ei in Ej. injection Ej as ->.
    apply NoDup_cons in N as [N _]. apply N. left.
Qed.

Lemma tidy_without (id : nat) (w : Window) :
  tidy w ->
  tidy (set_queue (_auto_next_id w)
          (List.filter (fun j => negb (Nat.eqb j id)) (queued w)) (next_id w) w).
Proof.
  intros (N & S & B). unfold tidy. cbn. split; [| split].
  - apply NoDup_without, N.
  - intros j Hj. apply elem_of_without in Hj. apply S, Hj.
  - intros j Hj. apply elem_of_without in Hj. apply B, Hj.
Qed.

Lemma tidy_deal_new {PT : PyText} (d : Draws) (w : Window) :
  tidy w -> tidy (snd (deal_new d w)).
Proof.
  destruct (deal_new_queue d w) as (Q & I & N). unfold tidy.
  rewrite Q, I, N. tauto.
Qed.

Lemma choose_eq (a : string) (w : Window) :
  tidy w ->
  exists w',
    choose a w = (Ok tt, w')
    /\ queued w' = [next_id w] /\ _auto_next_id w' = Some (next_id w)
    /\ next_id w' = S (next_id w).
Proof.
  intros Tw.
  unfold choose, mbind, W_bind, change, after_deal, mret, W_ret, try_pass, after_cancel.
  destruct (tidy_at_most_one w Tw) as [Q | (i & Q & Ii)].
  - destruct (String.eqb a (correct_action w)), (_auto_next_id w); cbn; rewrite Q; cbn;
      eexists; (split; [reflexivity |]); cbn; rewrite ?Q; auto.
  - rewrite Ii.
    destruct (String.eqb a (correct_action w)); cbn; rewrite Q; cbn;
      rewrite Nat.eqb_refl; cbn; rewrite ?Nat.eqb_refl; cbn;
      eexists; (split; [reflexivity |]); cbn; rewrite ?Q; cbn; rewrite ?Nat.eqb_refl; auto.
Qed.

Lemma tidy_react {PT : PyText} (a : action) (w : Window) :
  tidy w -> tidy (snd (react a w)).
Proof.
  intros Tw. destruct a as [a | d | id d | | l | p]; cbn [react].
  - destruct (choose_eq a w Tw) as (w' & -> & Q & I & N). cbn.
    unfold tidy. rewrite Q, I, N. split; [| split].
    + apply NoDup_singleton.
    + intros j Hj. apply list_elem_of_singleton in Hj as ->. reflexivity.
    + intros j Hj. apply list_elem_of_singleton in Hj as ->. lia.
  - apply tidy_deal_new, Tw.
  - destruct (existsb (Nat.eqb id) (queued w)); [| exact Tw].
    apply tidy_deal_new, tidy_without, Tw.
  - exact Tw.
  - exact Tw.
  - exact Tw.
Qed.

Lemma tidy_session {PT : PyText} (acts : list action) (w : Window) :
  tidy w -> tidy (session acts w).
Proof.
  revert w. induction acts as [| a acts IH]; intros w Tw; [exact Tw |].
  cbn. apply IH, tidy_react, Tw.
Qed.

Lemma tidy_opened {PT : PyText} (d : Draws) : tidy (opened d).
Proof.
  apply tidy_deal_new. unfold tidy, blank. cbn. split; [constructor |].
  split; intros j Hj; apply elem_of_nil in Hj; destruct Hj.
Qed.

(** X18.  The practice window never stacks automatic deals.  However the
    window has been used, at most one deal is pending; an answer returns,
    replaces the pending deal, if any, by one fresh deal whose identifier
    [_auto_next_id] holds; and once that deal has run none is pending. *)
Theorem practice_one_deal_pending {PT : PyText} (d0 : Draws) (acts : list action)
    (a : string) :
  let w := session acts (opened d0) in
  (length (queued w) <= 1)%nat
  /\ exists id w',
       choose a w = (Ok tt, w')
       /\ (id ∉ queued w)
       /\ queued w' = [id] /\ _auto_next_id w' = Some id
       /\ forall d, queued (snd (react (Due id d) w')) = [].
Proof.
  cbv zeta. set (w := session acts (opened d0)).
  assert (Tw : tidy w) by apply tidy_session, tidy_opened.
  split.
  { destruct (tidy_at_most_one w Tw) as [-> | (i & -> & _)]; cbn; lia. }
  destruct (choose_eq a w Tw) as (w' & E & Q & I & N).
  exists (next_id w), w'. split; [exact E |]. split.
  { intros H. destruct Tw as (_ & _ & B). apply B in H. lia. }
  split; [exact Q |]. split; [exact I |].
  intros d. cbn [react]. rewrite Q. cbn [existsb]. rewrite Nat.eqb_refl. cbn [orb].
  destruct (deal_new_queue d
              (set_queue (_auto_next_id w')
                 (List.filter (fun j => negb (Nat.eqb j (next_id w))) [next_id w])
                 (next_id w') w')) as (Qd & _ & _).
  rewrite Qd. cbn. rewrite Nat.eqb_refl. reflexivity.
Qed.

End PracticeFacts.
